(** * OsteoFlow neuromorphic core: a shallow embedding and its properties

    Source: [01_neuromorphic_simulator/neuromorphic_core.py].

    Numbers.  Python floats are embedded as exact rationals ([Q]); the
    decimal literals of the source are the same decimals here.  Rounding,
    underflow, infinities and NaN are outside this model, and so is the
    value of a division by zero (the statements that divide assume a
    nonzero divisor).  Python ints are [Z].  Numerical equality ([==] of
    Python) is [Qeq]; [=] below is identity of the computed value.  The
    statements keep the expressions of the code, operation by operation,
    so that they read the same in binary64; where a property of the exact
    numbers fails in binary64, the failing case is computed with Rocq's
    primitive floats, which are IEEE 754 binary64 like Python's [float].

    Effects.  The interpreter-wide random generator of [np.random] and the
    wall clock of [time.time] form the ambient world [W]; every method that
    draws from them threads the world explicitly.  Objects are owned by
    exactly one parent (chip > layer > neuron > synapse), so they are
    records passed in and out of the methods that mutate them. *)

From Stdlib Require Import QArith Qminmax Lqa Lia ZArith Bool List.
From Stdlib Require Import PrimFloat.
Import ListNotations.

Open Scope Q_scope.

(** ** Python values and outcomes *)

(** [read] returns the int literal [0] on one path and a float on the
    other, so its result type keeps the tag. *)
Inductive pynum : Type :=
| PyInt (z : Z)
| PyFloat (q : Q).

Definition pynum_value (v : pynum) : Q :=
  match v with
  | PyInt z => inject_Z z
  | PyFloat q => q
  end.

(** The exceptions the core can raise. *)
Inductive exn : Type :=
| ValueError
| IndexError
| ZeroDivisionError.

Inductive outcome (A : Type) : Type :=
| Returned (a : A)
| Raised (e : exn).

Arguments Returned {A} a.
Arguments Raised {A} e.

(** ** Comparisons on floats, as booleans *)

Definition Qltb (x y : Q) : bool := negb (Qle_bool y x).
Definition Qgtb (x y : Q) : bool := Qltb y x.

Infix "<?" := Qltb (at level 70, no associativity) : Q_scope.
Infix ">?" := Qgtb (at level 70, no associativity) : Q_scope.

(** Truthiness of a float: only zero is falsy. *)
Definition truthy (x : Q) : bool := negb (Qeq_bool x 0).

(** ** numpy: element-wise helpers that have a closed form *)

(** [np.maximum], [np.minimum] and [np.clip] on scalars;
    [np.clip(x, lo, hi)] is [minimum(maximum(x, lo), hi)]. *)
Definition np_maximum (a b : Q) : Q := if a <? b then b else a.
Definition np_minimum (a b : Q) : Q := if b <? a then b else a.
Definition np_clip (x lo hi : Q) : Q := np_minimum (np_maximum x lo) hi.

Definition py_sum (l : list Q) : Q := fold_left Qplus l 0.

(** Python's [len] as an int. *)
Definition len {A : Type} (l : list A) : Z := Z.of_nat (length l).

(** [l[i]] with Python's negative indices; [None] stands for IndexError. *)
Definition py_index (n : nat) (i : Z) : option nat :=
  if (0 <=? i)%Z then
    if (i <? Z.of_nat n)%Z then Some (Z.to_nat i) else None
  else
    if (- Z.of_nat n <=? i)%Z then Some (Z.to_nat (Z.of_nat n + i)) else None.

Definition py_getitem {A : Type} (l : list A) (i : Z) : option A :=
  match py_index (length l) i with
  | Some k => nth_error l k
  | None => None
  end.

Fixpoint list_set {A : Type} (l : list A) (k : nat) (x : A) : list A :=
  match l, k with
  | [], _ => []
  | _ :: t, O => x :: t
  | h :: t, S k' => h :: list_set t k' x
  end.

(** ** The ambient interfaces *)

(** The transcendental functions of numpy, which have no rational closed
    form, are taken as an interface.  [np_log10] stands for [np.log10] at
    positive arguments only: at a negative argument numpy answers NaN,
    which these numbers do not have, so statements about the result of a
    construction assume a positive target. *)
Class NumPy : Type := {
  np_log10 : Q -> Q;
  pow10 : Q -> Q;          (* 10 ** x *)
  np_exp : Q -> Q;
  np_sqrt : Q -> Q
}.

(** The global generator and the clock.  [np_random_normal loc scale]
    stands for [np.random.normal] at a scale that is not negative (numpy
    raises ValueError otherwise); the code calls it with [0.04 / 2]. *)
Class World (W : Type) : Type := {
  np_random_normal : Q -> Q -> W -> Q * W;
  np_random_uniform : Q -> Q -> W -> Q * W;
  np_random_random : W -> Q * W;
  np_random_randint : Z -> Z -> W -> Z * W;
  time_time : W -> Q * W
}.

(** Computations in the world. *)
Definition Eff (W A : Type) : Type := W -> A * W.

Definition ret {W A : Type} (a : A) : Eff W A := fun w => (a, w).

Definition bind {W A B : Type} (m : Eff W A) (k : A -> Eff W B) : Eff W B :=
  fun w => let (a, w') := m w in k a w'.

Notation "x <- m ;; k" := (bind m (fun x => k))
  (at level 61, m at next level, right associativity).

(** ** MaterialProperties *)

Record MaterialProperties : Type := mkMaterialProperties {
  grafeno_thermal_conductivity : Q;
  hfo2_resistance_range : Q * Q;
  hfo2_target_resistance : Q;
  hfo2_variability : Q;
  num_layers : Z;
  neurons_per_layer : Z
}.

(** [MaterialProperties()]: the dataclass defaults.  The generated
    [__init__] stores whatever it is given; there is no [__post_init__]. *)
Definition MaterialProperties_default : MaterialProperties :=
  {| grafeno_thermal_conductivity := 5000;
     hfo2_resistance_range := (10e3, 1e6);
     hfo2_target_resistance := 100e3;
     hfo2_variability := 0.04;
     num_layers := 8;
     neurons_per_layer := 1250 |}.

(** The [__init__] the dataclass decorator generates: one keyword argument
    per field, [None] here when the caller omits it; every value given is
    stored as it is. *)
Definition MaterialProperties_init
    (grafeno_thermal_conductivity_ : option Q)
    (hfo2_resistance_range_ : option (Q * Q))
    (hfo2_target_resistance_ : option Q)
    (hfo2_variability_ : option Q)
    (num_layers_ : option Z)
    (neurons_per_layer_ : option Z) : MaterialProperties :=
  let or_default {A : Type} (given : option A) (default : A) : A :=
    match given with Some a => a | None => default end in
  {| grafeno_thermal_conductivity :=
       or_default grafeno_thermal_conductivity_ 5000;
     hfo2_resistance_range := or_default hfo2_resistance_range_ (10e3, 1e6);
     hfo2_target_resistance := or_default hfo2_target_resistance_ 100e3;
     hfo2_variability := or_default hfo2_variability_ 0.04;
     num_layers := or_default num_layers_ 8%Z;
     neurons_per_layer := or_default neurons_per_layer_ 1250%Z |}.

(** ** HfO2Memristor *)

Record HfO2Memristor : Type := mkHfO2Memristor {
  props : MaterialProperties;
  resistance : Q;
  filament : Q;
  cycles : Z;
  degraded : bool;
  history : list Q
}.

Section Core.

Context {NP : NumPy} {W : Type} {WD : World W}.

(** [target_resistance or self.props.hfo2_target_resistance]: [None] and
    zero are falsy and give way to the configured default. *)
Definition effective_target (p : MaterialProperties)
    (target_resistance : option Q) : Q :=
  match target_resistance with
  | Some t => if truthy t then t else hfo2_target_resistance p
  | None => hfo2_target_resistance p
  end.

(** The body of [HfO2Memristor.__init__] once [self.props] is set.
    [target_resistance] is [None] when the argument is omitted.  The code
    sets [self.props] to [MaterialProperties()] and to nothing else: the
    constructor is [HfO2Memristor_init] below, and [p] is no input of the
    code. *)
Definition HfO2Memristor_init_with (p : MaterialProperties)
    (target_resistance : option Q) : Eff W HfO2Memristor :=
  let '(r_min, r_max) := hfo2_resistance_range p in
  let target := effective_target p target_resistance in
  let log_target := np_log10 target in
  let log_std := hfo2_variability p / 2 in
  noise <- np_random_normal 0 log_std ;;
  let log_r := log_target + noise in
  let r0 := pow10 log_r in
  let r := np_clip r0 (r_min * 0.9) (r_max * 1.1) in
  ret {| props := p;
         resistance := r;
         filament := 1.0 / r;
         cycles := 0;
         degraded := false;
         history := [r] |}.

Definition HfO2Memristor_init (target_resistance : option Q)
  : Eff W HfO2Memristor :=
  HfO2Memristor_init_with MaterialProperties_default target_resistance.

(** The multiplicative step of one pulse: SET above 1 V, RESET below
    -1 V, nothing in between. *)
Definition pulse_step (r voltage : Q) : Q :=
  if voltage >? 1.0 then r * 0.97
  else if voltage <? -1.0 then r * 1.03
  else r.

(** The wear-out roll; [and] short-circuits, so the generator is only
    consulted once the cycle count is above 10000. *)
Definition degradation_roll (cycles_now : Z) : Eff W bool :=
  if (cycles_now >? 10000)%Z then
    u <- np_random_random ;;
    ret (u <? 0.0001)
  else ret false.

Definition pulse (self : HfO2Memristor) (voltage : Q) : Eff W HfO2Memristor :=
  if degraded self then ret self
  else
    let cycles1 := (cycles self + 1)%Z in
    let r1 := pulse_step (resistance self) voltage in
    let '(r_min, r_max) := hfo2_resistance_range (props self) in
    let r2 := np_clip r1 r_min r_max in
    failed <- degradation_roll cycles1 ;;
    ret {| props := props self;
           resistance := r2;
           filament := 1.0 / r2;
           cycles := cycles1;
           degraded := if failed then true else degraded self;
           history := history self ++ [r2] |}.

Definition read (self : HfO2Memristor) (voltage : Q) : pynum :=
  if degraded self then PyInt 0
  else PyFloat (voltage / resistance self).

(** [read()] with the default argument. *)
Definition read_default (self : HfO2Memristor) : pynum := read self 0.2.

(** ** BayesianNeuron *)

Record BayesianNeuron : Type := mkBayesianNeuron {
  neuron_id : Z;
  layer : Z;
  synapses : list HfO2Memristor;
  threshold : Q;
  potential : Q;
  spike_count : Z
}.

(** A list comprehension whose body draws from the world: the elements are
    built left to right. *)
Fixpoint comprehension {A : Type} (n : nat) (body : nat -> Eff W A)
    (i : nat) : Eff W (list A) :=
  match n with
  | O => ret []
  | S n' =>
      x <- body i ;;
      xs <- comprehension n' body (S i) ;;
      ret (x :: xs)
  end.

Definition BayesianNeuron_init (id_ : Z) (layer_ : Z) : Eff W BayesianNeuron :=
  syns <- comprehension 100 (fun _ => HfO2Memristor_init None) 0 ;;
  thr <- np_random_uniform 0.3 0.7 ;;
  ret {| neuron_id := id_;
         layer := layer_;
         synapses := syns;
         threshold := thr;
         potential := 0.0;
         spike_count := 0 |}.

(** The summation loop of [process]: position [i] of the slice
    [inputs[:len(synapses)]] meets [synapses[i]]. *)
Definition consulted (syns : list HfO2Memristor) (inputs : list Q)
  : list (Q * HfO2Memristor) :=
  combine (firstn (length syns) inputs) syns.

Definition current_term (pr : Q * HfO2Memristor) : Q :=
  fst pr / resistance (snd pr).

Definition total_current (syns : list HfO2Memristor) (inputs : list Q) : Q :=
  fold_left (fun acc pr => acc + current_term pr) (consulted syns inputs) 0.0.

Definition integrate (self : BayesianNeuron) (inputs : list Q) : Q :=
  0.9 * potential self + 0.1 * total_current (synapses self) inputs.

Definition activation (potential_now threshold_ : Q) : Q :=
  let x := (potential_now - threshold_) * 5 in
  1.0 / (1.0 + np_exp (- x)).

Definition process (self : BayesianNeuron) (inputs : list Q)
  : Eff W (Q * BayesianNeuron) :=
  let potential1 := integrate self inputs in
  let prob := activation potential1 (threshold self) in
  u <- np_random_random ;;
  if u <? prob then
    ret (prob,
         {| neuron_id := neuron_id self;
            layer := layer self;
            synapses := synapses self;
            threshold := threshold self;
            potential := 0.0;
            spike_count := (spike_count self + 1)%Z |})
  else
    ret (0.0,
         {| neuron_id := neuron_id self;
            layer := layer self;
            synapses := synapses self;
            threshold := threshold self;
            potential := potential1;
            spike_count := spike_count self |}).

(** ** NeuromorphicChip *)

Record NeuromorphicChip : Type := mkNeuromorphicChip {
  chip_props : MaterialProperties;
  layers : list (list BayesianNeuron);
  total_neurons : Z;
  temperature : Q;
  power_draw : Q
}.

(** [range(n)] runs [Z.to_nat n] times: not at all for [n <= 0]. *)
Definition range_len (n : Z) : nat := Z.to_nat n.

(** The construction loop: [done] holds the layers appended so far and
    [total] the running id counter. *)
Fixpoint build_layers (remaining : nat) (per_layer : Z) (layer_ : Z)
    (done : list (list BayesianNeuron)) (total : Z)
  : Eff W (list (list BayesianNeuron) * Z) :=
  match remaining with
  | O => ret (done, total)
  | S remaining' =>
      layer_neurons <-
        comprehension (range_len per_layer)
          (fun i => BayesianNeuron_init (total + Z.of_nat i)%Z layer_) 0 ;;
      build_layers remaining' per_layer (layer_ + 1)%Z
        (done ++ [layer_neurons]) (total + len layer_neurons)%Z
  end.

(** The body of [NeuromorphicChip.__init__] once [self.props] is set.  The
    code sets it to [MaterialProperties()] and to nothing else: the
    constructor is [NeuromorphicChip_init] below, and [p] is no input of
    the code (the units and their elements are built on the default
    configuration whatever [p] is). *)
Definition NeuromorphicChip_init_with (p : MaterialProperties)
  : Eff W NeuromorphicChip :=
  built <- build_layers (range_len (num_layers p)) (neurons_per_layer p) 0 [] 0 ;;
  ret {| chip_props := p;
         layers := fst built;
         total_neurons := snd built;
         temperature := 300;
         power_draw := 0.0 |}.

Definition NeuromorphicChip_init : Eff W NeuromorphicChip :=
  NeuromorphicChip_init_with MaterialProperties_default.

Definition thermal_simulation (self : NeuromorphicChip) (ambient : Q)
  : Q * NeuromorphicChip :=
  let t := ambient + power_draw self * 0.1 in
  (t - 273,
   {| chip_props := chip_props self;
      layers := layers self;
      total_neurons := total_neurons self;
      temperature := t;
      power_draw := power_draw self |}).

(** [np.random.randint(0, high)]: numpy raises ValueError unless
    [0 < high].  (It also does for [high] above the int64 bound 2^63;
    counts of that size are not modelled, and the statements about which
    calls raise are restricted to counts within the bound.) *)
Definition randint_from_zero (high : Z) : Eff W (outcome Z) :=
  if (high <=? 0)%Z then ret (Raised ValueError)
  else k <- np_random_randint 0 high ;; ret (Returned k).

(** [np.random.random(n)]: [n] successive draws. *)
Definition np_random_vector (n : nat) : Eff W (list Q) :=
  comprehension n (fun _ => np_random_random) 0.

Definition energy_quantum : Q := 1e-12 * 10.

Definition with_layers (self : NeuromorphicChip)
    (ls : list (list BayesianNeuron)) : NeuromorphicChip :=
  {| chip_props := chip_props self;
     layers := ls;
     total_neurons := total_neurons self;
     temperature := temperature self;
     power_draw := power_draw self |}.

Definition with_power (self : NeuromorphicChip) (pw : Q) : NeuromorphicChip :=
  {| chip_props := chip_props self;
     layers := layers self;
     total_neurons := total_neurons self;
     temperature := temperature self;
     power_draw := pw |}.

(** [self.layers[l][n]]: the addressed neuron with the positions it sits
    at, or IndexError. *)
Definition locate (ls : list (list BayesianNeuron)) (l n : Z)
  : option (nat * nat * BayesianNeuron) :=
  match py_index (length ls) l with
  | None => None
  | Some kl =>
      match nth_error ls kl with
      | None => None
      | Some row =>
          match py_index (length row) n with
          | None => None
          | Some kn =>
              match nth_error row kn with
              | None => None
              | Some nrn => Some (kl, kn, nrn)
              end
          end
      end
  end.

(** The neuron object is mutated in place: the same slot of the same
    layer holds the updated neuron. *)
Definition store (ls : list (list BayesianNeuron)) (kl kn : nat)
    (nrn : BayesianNeuron) : list (list BayesianNeuron) :=
  match nth_error ls kl with
  | None => ls
  | Some row => list_set ls kl (list_set row kn nrn)
  end.

Definition process_random_spike (self : NeuromorphicChip)
  : Eff W (outcome Q * NeuromorphicChip) :=
  picked_layer <- randint_from_zero (num_layers (chip_props self)) ;;
  match picked_layer with
  | Raised e => ret (Raised e, self)
  | Returned l =>
      picked_neuron <- randint_from_zero (neurons_per_layer (chip_props self)) ;;
      match picked_neuron with
      | Raised e => ret (Raised e, self)
      | Returned n =>
          draws <- np_random_vector 100 ;;
          let inputs := map (fun d => d * 0.5) draws in
          start <- time_time ;;
          match locate (layers self) l n with
          | None => ret (Raised IndexError, self)
          | Some (kl, kn, nrn) =>
              fired <- process nrn inputs ;;
              let '(spike, nrn') := fired in
              stop <- time_time ;;
              let latency := (stop - start) * 1e6 in
              let self1 := with_layers self (store (layers self) kl kn nrn') in
              let self2 :=
                if spike >? 0
                then with_power self1 (power_draw self1 + energy_quantum)
                else self1 in
              ret (Returned latency, self2)
          end
      end
  end.

(** The statistics record (the returned dict has exactly these keys). *)
Record Stats : Type := mkStats {
  stat_neurons : Z;
  stat_synapses : Z;
  stat_mean_resistance : Q;
  stat_std_resistance : Q;
  stat_variability_percent : Q;
  stat_degraded_percent : Q;
  stat_temperature_C : Q;
  stat_power_W : Q
}.

Definition all_synapses (ls : list (list BayesianNeuron)) : list HfO2Memristor :=
  flat_map (fun row => flat_map synapses row) ls.

Definition count_degraded (syns : list HfO2Memristor) : Z :=
  fold_left (fun d syn => if degraded syn then (d + 1)%Z else d) syns 0%Z.

(** [np.mean] and [np.std] of a list. *)
Definition np_mean (l : list Q) : Q := py_sum l / inject_Z (len l).

Definition np_std (l : list Q) : Q :=
  let m := np_mean l in
  np_sqrt (np_mean (map (fun x => (x - m) * (x - m)) l)).

(** True division of two ints. *)
Definition int_truediv (a b : Z) : outcome Q :=
  if (b =? 0)%Z then Raised ZeroDivisionError
  else Returned (inject_Z a / inject_Z b).

(** The dict display is evaluated key by key: the int division of
    [degraded_percent] comes before the call of [thermal_simulation]. *)
Definition get_stats (self : NeuromorphicChip)
  : outcome Stats * NeuromorphicChip :=
  let syns := all_synapses (layers self) in
  let all_resistances := map resistance syns in
  let degraded_ := count_degraded syns in
  let mean_ := np_mean all_resistances in
  let std_ := np_std all_resistances in
  let variability := (std_ / mean_) * 100 in
  match int_truediv degraded_ (len all_resistances) with
  | Raised e => (Raised e, self)
  | Returned ratio =>
      let '(celsius, self') := thermal_simulation self 300 in
      (Returned {| stat_neurons := total_neurons self;
                   stat_synapses := len all_resistances;
                   stat_mean_resistance := mean_;
                   stat_std_resistance := std_;
                   stat_variability_percent := variability;
                   stat_degraded_percent := ratio * 100;
                   stat_temperature_C := celsius;
                   stat_power_W := power_draw self' |},
       self')
  end.

(** ** Drivers *)

(** [for _ in range(n): chip.process_random_spike()]: the loop ends at the
    first exception. *)
Fixpoint drive (n : nat) (self : NeuromorphicChip)
  : Eff W (outcome unit * NeuromorphicChip) :=
  match n with
  | O => ret (Returned tt, self)
  | S n' =>
      r <- process_random_spike self ;;
      match fst r with
      | Raised e => ret (Raised e, snd r)
      | Returned _ => drive n' (snd r)
      end
  end.

(** A pulse train on one element. *)
Fixpoint pulses (self : HfO2Memristor) (voltages : list Q)
  : Eff W HfO2Memristor :=
  match voltages with
  | [] => ret self
  | v :: vs => self' <- pulse self v ;; pulses self' vs
  end.

(** The two entry points an external driver has into a chip's parts:
    [chip.layers[l][n].synapses[s].pulse(v)] and
    [chip.layers[l][n].process(inputs)]. *)
Definition chip_pulse (self : NeuromorphicChip) (l n s : Z) (voltage : Q)
  : Eff W (outcome unit * NeuromorphicChip) :=
  match locate (layers self) l n with
  | None => ret (Raised IndexError, self)
  | Some (kl, kn, nrn) =>
      match py_index (length (synapses nrn)) s with
      | None => ret (Raised IndexError, self)
      | Some ks =>
          match nth_error (synapses nrn) ks with
          | None => ret (Raised IndexError, self)
          | Some syn =>
              syn' <- pulse syn voltage ;;
              let nrn' :=
                {| neuron_id := neuron_id nrn;
                   layer := layer nrn;
                   synapses := list_set (synapses nrn) ks syn';
                   threshold := threshold nrn;
                   potential := potential nrn;
                   spike_count := spike_count nrn |} in
              ret (Returned tt,
                   with_layers self (store (layers self) kl kn nrn'))
          end
      end
  end.

Definition chip_process (self : NeuromorphicChip) (l n : Z) (inputs : list Q)
  : Eff W (outcome Q * NeuromorphicChip) :=
  match locate (layers self) l n with
  | None => ret (Raised IndexError, self)
  | Some (kl, kn, nrn) =>
      fired <- process nrn inputs ;;
      ret (Returned (fst fired),
           with_layers self (store (layers self) kl kn (snd fired)))
  end.

End Core.

(** ** The command-line harness *)

Section Harness.

Context {NP : NumPy} {W : Type} {WD : World W}.

(** The [__main__] block without its printing: build the chip, run 100
    random spikes, take the statistics.  An exception of the loop ends the
    program before [get_stats]. *)
Definition main_run : Eff W (outcome Stats * NeuromorphicChip) :=
  chip <- NeuromorphicChip_init ;;
  r <- drive 100 chip ;;
  match fst r with
  | Raised e => ret (Raised e, snd r)
  | Returned _ => ret (get_stats (snd r))
  end.

End Harness.

(** ** A scripted world, to run the model on examples *)

(** A world whose draws, integer picks and clock are written down in
    advance; an exhausted script answers zero. *)
Record Script : Type := mkScript {
  draws : list Q;
  picks : list Z;
  clock : Q
}.

Definition next_draw (s : Script) : Q * Script :=
  match draws s with
  | [] => (0, s)
  | d :: ds => (d, {| draws := ds; picks := picks s; clock := clock s |})
  end.

Definition next_pick (s : Script) : Z * Script :=
  match picks s with
  | [] => (0%Z, s)
  | k :: ks => (k, {| draws := draws s; picks := ks; clock := clock s |})
  end.

Definition tick (s : Script) : Q * Script :=
  (clock s, {| draws := draws s; picks := picks s; clock := clock s + 1 |}).

#[export] Instance Script_World : World Script := {
  np_random_normal := fun _ _ => next_draw;
  np_random_uniform := fun _ _ => next_draw;
  np_random_random := next_draw;
  np_random_randint := fun _ _ => next_pick;
  time_time := tick
}.

(** Rational stand-ins for the transcendental functions, good enough to
    evaluate examples: each is the first-order expansion of the function
    it stands for ([log10] and [10 **] around the 100 kOhm target, [exp]
    around 0, [sqrt] around 1). *)
#[export] Instance Coarse_NumPy : NumPy := {
  np_log10 := fun x => 5 + (x - 100000) / 230000;
  pow10 := fun x => 100000 + (x - 5) * 230000;
  np_exp := fun x => 1 + x;
  np_sqrt := fun x => (1 + x) / 2
}.

(** The two malformations the specification names. *)
Definition malformed (p : MaterialProperties) : bool :=
  (snd (hfo2_resistance_range p) <? fst (hfo2_resistance_range p))
  || (neurons_per_layer p =? 0)%Z.

Definition zero_units_config : MaterialProperties :=
  {| grafeno_thermal_conductivity := 5000;
     hfo2_resistance_range := (10e3, 1e6);
     hfo2_target_resistance := 100e3;
     hfo2_variability := 0.04;
     num_layers := 8;
     neurons_per_layer := 0 |}.

Definition inverted_range_config : MaterialProperties :=
  {| grafeno_thermal_conductivity := 5000;
     hfo2_resistance_range := (1e6, 10e3);
     hfo2_target_resistance := 100e3;
     hfo2_variability := 0.04;
     num_layers := 8;
     neurons_per_layer := 1250 |}.

Definition quiet : Script := {| draws := []; picks := []; clock := 0 |}.

(** A fresh element at 100 kOhm, and the same element worn out. *)
Definition fresh_element : HfO2Memristor :=
  {| props := MaterialProperties_default;
     resistance := 100e3;
     filament := 1.0 / 100e3;
     cycles := 0;
     degraded := false;
     history := [100e3] |}.

Definition dead_element : HfO2Memristor :=
  {| props := MaterialProperties_default;
     resistance := 100e3;
     filament := 1.0 / 100e3;
     cycles := 10001;
     degraded := true;
     history := [100e3] |}.

Definition small_neuron : BayesianNeuron :=
  {| neuron_id := 0;
     layer := 0;
     synapses := [fresh_element; dead_element];
     threshold := 0.5;
     potential := 0.25;
     spike_count := 0 |}.

Definition small_chip : NeuromorphicChip :=
  {| chip_props := {| grafeno_thermal_conductivity := 5000;
                      hfo2_resistance_range := (10e3, 1e6);
                      hfo2_target_resistance := 100e3;
                      hfo2_variability := 0.04;
                      num_layers := 1;
                      neurons_per_layer := 1 |};
     layers := [[small_neuron]];
     total_neurons := 1;
     temperature := 300;
     power_draw := 0.0 |}.

(** An element that sits at the floor of its range, one close to wear-out
    and one whose configuration has the range inverted. *)
Definition floor_element : HfO2Memristor :=
  {| props := MaterialProperties_default;
     resistance := 10e3;
     filament := 1.0 / 10e3;
     cycles := 40;
     degraded := false;
     history := [10e3] |}.

Definition worn_element : HfO2Memristor :=
  {| props := MaterialProperties_default;
     resistance := 100e3;
     filament := 1.0 / 100e3;
     cycles := 10000;
     degraded := false;
     history := [100e3] |}.

Definition inverted_element : HfO2Memristor :=
  {| props := inverted_range_config;
     resistance := 11000;
     filament := 1.0 / 11000;
     cycles := 0;
     degraded := false;
     history := [11000] |}.

(** ** A scripted world that keeps [randint] inside its bounds *)

Definition bounded_pick (low high : Z) (s : Script) : Z * Script :=
  let (k, s') := next_pick s in ((low + k mod (high - low))%Z, s').

Definition Bounded_World : World Script := {|
  np_random_normal := fun _ _ => next_draw;
  np_random_uniform := fun _ _ => next_draw;
  np_random_random := next_draw;
  np_random_randint := bounded_pick;
  time_time := tick
|}.

(** ** Further predicates *)

(** The stored conductance is the reciprocal of the stored resistance. *)
Definition conductance_consistent (e : HfO2Memristor) : Prop :=
  filament e = 1.0 / resistance e.

(** The clip window of the constructor. *)
Definition in_construction_window (e : HfO2Memristor) : Prop :=
  fst (hfo2_resistance_range (props e)) * 0.9 <= resistance e /\
  resistance e <= snd (hfo2_resistance_range (props e)) * 1.1.

(** A train of [n] equal pulses. *)
Definition train (voltage : Q) (n : nat) : list Q := repeat voltage n.

(** An element as the constructor leaves it under the default
    configuration. *)
Definition pristine (e : HfO2Memristor) : Prop :=
  props e = MaterialProperties_default /\
  degraded e = false /\
  cycles e = 0%Z /\
  history e = [resistance e] /\
  filament e = 1.0 / resistance e /\
  9000 <= resistance e /\ resistance e <= 1100000.

(** A unit as its constructor leaves it. *)
Definition pristine_unit (nrn : BayesianNeuron) : Prop :=
  potential nrn = 0.0 /\
  spike_count nrn = 0%Z /\
  length (synapses nrn) = 100%nat /\
  Forall pristine (synapses nrn).

(** The layers have the shape the configuration asks for. *)
Definition shaped (c : NeuromorphicChip) : Prop :=
  length (layers c) = range_len (num_layers (chip_props c)) /\
  Forall (fun row => length row = range_len (neurons_per_layer (chip_props c)))
    (layers c).

(** [randint(0, high)] answers inside [0, high). *)
Definition randint_in_bounds {W : Type} {WD : World W} : Prop :=
  forall (high : Z) (w : W),
    (0 < high)%Z ->
    (0 <= fst (np_random_randint 0 high w) < high)%Z.

(** Where each unit sits decides its id and its layer field. *)
Definition numbered (per : nat) (ls : list (list BayesianNeuron)) : Prop :=
  forall (l : nat) (row : list BayesianNeuron) (i : nat)
         (nrn : BayesianNeuron),
    nth_error ls l = Some row -> nth_error row i = Some nrn ->
    neuron_id nrn = (Z.of_nat l * Z.of_nat per + Z.of_nat i)%Z /\
    layer nrn = Z.of_nat l /\
    pristine_unit nrn.

(** The unit at position [i] of layer [l], if there is one. *)
Definition unit_at (ls : list (list BayesianNeuron)) (l i : nat)
  : option BayesianNeuron :=
  match nth_error ls l with
  | Some row => nth_error row i
  | None => None
  end.

(** ** Variants of an element and of a unit *)

(** The element with its degraded flag replaced. *)
Definition with_degraded (b : bool) (e : HfO2Memristor) : HfO2Memristor :=
  {| props := props e;
     resistance := resistance e;
     filament := filament e;
     cycles := cycles e;
     degraded := b;
     history := history e |}.

(** The unit with its element bank replaced. *)
Definition with_synapses (nrn : BayesianNeuron) (syns : list HfO2Memristor)
  : BayesianNeuron :=
  {| neuron_id := neuron_id nrn;
     layer := layer nrn;
     synapses := syns;
     threshold := threshold nrn;
     potential := potential nrn;
     spike_count := spike_count nrn |}.

(** The summand [val / self.synapses[i].resistance] of [process], evaluated
    in IEEE 754 binary64, the arithmetic of Python's [float]. *)
Definition current_term_binary64 (val resistance_ : float) : float :=
  (val / resistance_)%float.

(** ** Predicates used in the statements *)

(** The resistance lies in the operating range of the element. *)
Definition in_range (e : HfO2Memristor) : Prop :=
  fst (hfo2_resistance_range (props e)) <= resistance e /\
  resistance e <= snd (hfo2_resistance_range (props e)).

Definition range_ordered (p : MaterialProperties) : Prop :=
  fst (hfo2_resistance_range p) <= snd (hfo2_resistance_range p).

(** The bookkeeping invariant of an element. *)
Definition history_invariant (e : HfO2Memristor) : Prop :=
  len (history e) = (cycles e + 1)%Z.

(** A unit owns 100 elements. *)
Definition full_bank (nrn : BayesianNeuron) : Prop :=
  length (synapses nrn) = 100%nat.

(** * Properties *)

(** ** Arithmetic helpers *)

Lemma Qltb_lt (x y : Q) : (x <? y) = true <-> x < y.
Proof.
  unfold Qltb. rewrite negb_true_iff.
  destruct (Qle_bool y x) eqn:E.
  - apply Qle_bool_iff in E. split; [discriminate | intro H; lra].
  - split; [intros _ | reflexivity].
    apply Qnot_le_lt. intro H. apply Qle_bool_iff in H. congruence.
Qed.

Lemma Qltb_ge (x y : Q) : (x <? y) = false <-> y <= x.
Proof.
  unfold Qltb. rewrite negb_false_iff. apply Qle_bool_iff.
Qed.

Lemma Qgtb_gt (x y : Q) : (x >? y) = true <-> y < x.
Proof. unfold Qgtb. apply Qltb_lt. Qed.

Lemma Qgtb_le (x y : Q) : (x >? y) = false <-> x <= y.
Proof. unfold Qgtb. apply Qltb_ge. Qed.

Lemma Qmult_one_id (q : Q) : q * 1 = q.
Proof.
  destruct q as [n d]. unfold Qmult. simpl.
  rewrite Z.mul_1_r, Pos.mul_1_r. reflexivity.
Qed.

Lemma np_clip_bounds (x lo hi : Q) :
  lo <= hi -> lo <= np_clip x lo hi /\ np_clip x lo hi <= hi.
Proof.
  intro Hle. unfold np_clip, np_minimum, np_maximum.
  destruct (x <? lo) eqn:E1.
  - destruct (hi <? lo) eqn:E2.
    + apply Qltb_lt in E2. lra.
    + split; lra.
  - apply Qltb_ge in E1.
    destruct (hi <? x) eqn:E2.
    + split; lra.
    + apply Qltb_ge in E2. split; lra.
Qed.

Lemma np_clip_inside (x lo hi : Q) :
  lo <= x -> x <= hi -> np_clip x lo hi = x.
Proof.
  intros H1 H2. unfold np_clip, np_minimum, np_maximum.
  destruct (x <? lo) eqn:E1.
  - apply Qltb_lt in E1. lra.
  - destruct (hi <? x) eqn:E2; [apply Qltb_lt in E2; lra | reflexivity].
Qed.

Section Properties.

Context {NP : NumPy} {W : Type} {WD : World W}.

(** ** Resistive element *)

(** What a pulse on a live element computes, field by field. *)
Lemma pulse_live (e : HfO2Memristor) (v : Q) (w : W) :
  degraded e = false ->
  let r2 := np_clip (pulse_step (resistance e) v)
              (fst (hfo2_resistance_range (props e)))
              (snd (hfo2_resistance_range (props e))) in
  let roll := degradation_roll (cycles e + 1)%Z w in
  pulse e v w =
    ({| props := props e;
        resistance := r2;
        filament := 1.0 / r2;
        cycles := (cycles e + 1)%Z;
        degraded := fst roll;
        history := history e ++ [r2] |}, snd roll).
Proof.
  intros Hlive. unfold pulse. rewrite Hlive.
  destruct (hfo2_resistance_range (props e)) as [r_min r_max]. simpl.
  unfold bind, ret.
  destruct (degradation_roll (cycles e + 1)%Z w) as [failed w']. simpl.
  destruct failed; reflexivity.
Qed.

Lemma pulse_dead (e : HfO2Memristor) (v : Q) (w : W) :
  degraded e = true -> pulse e v w = (e, w).
Proof. intros Hdead. unfold pulse. rewrite Hdead. reflexivity. Qed.

Lemma pulse_props (e : HfO2Memristor) (v : Q) (w : W) :
  props (fst (pulse e v w)) = props e.
Proof.
  destruct (degraded e) eqn:E.
  - rewrite pulse_dead by assumption. reflexivity.
  - rewrite pulse_live by assumption. reflexivity.
Qed.

Lemma pulse_in_range (e : HfO2Memristor) (v : Q) (w : W) :
  degraded e = false -> range_ordered (props e) ->
  in_range (fst (pulse e v w)).
Proof.
  intros Hlive Hord. rewrite pulse_live by assumption.
  unfold in_range. simpl. apply np_clip_bounds. exact Hord.
Qed.

Lemma pulse_keeps_range (e : HfO2Memristor) (v : Q) (w : W) :
  range_ordered (props e) -> in_range e -> in_range (fst (pulse e v w)).
Proof.
  intros Hord Hin. destruct (degraded e) eqn:E.
  - rewrite pulse_dead by assumption. exact Hin.
  - apply pulse_in_range; assumption.
Qed.

Lemma pulses_keep_range (vs : list Q) :
  forall (e : HfO2Memristor) (w : W),
    range_ordered (props e) -> in_range e -> in_range (fst (pulses e vs w)).
Proof.
  induction vs as [|v vs IH]; intros e w Hord Hin.
  - exact Hin.
  - simpl. unfold bind.
    pose proof (pulse_keeps_range e v w Hord Hin) as Hstep.
    pose proof (pulse_props e v w) as Hp.
    destruct (pulse e v w) as [e1 w1]. simpl in *.
    apply IH; [unfold range_ordered; rewrite Hp; exact Hord | exact Hstep].
Qed.

Lemma pulses_props (vs : list Q) :
  forall (e : HfO2Memristor) (w : W), props (fst (pulses e vs w)) = props e.
Proof.
  induction vs as [|v vs IH]; intros e w.
  - reflexivity.
  - simpl. unfold bind.
    pose proof (pulse_props e v w) as Hp.
    destruct (pulse e v w) as [e1 w1]. simpl in *.
    rewrite IH. exact Hp.
Qed.

(** C1: a pulse on an element that is not degraded counts one cycle and
    sets the resistance to the clipped product: factor 0.97 above 1 V,
    1.03 below -1 V, and 1 (no change before the clip) for a voltage in
    [-1, 1]; with an ordered range the new resistance lies in
    [r_min, r_max], and it stays there along every further pulse train. *)
Theorem pulse_updates_and_clips (e : HfO2Memristor) (v : Q) (w : W) :
  degraded e = false ->
  let r_min := fst (hfo2_resistance_range (props e)) in
  let r_max := snd (hfo2_resistance_range (props e)) in
  let e' := fst (pulse e v w) in
  cycles e' = (cycles e + 1)%Z /\
  (1.0 < v -> resistance e' = np_clip (resistance e * 0.97) r_min r_max) /\
  (v < -1.0 -> resistance e' = np_clip (resistance e * 1.03) r_min r_max) /\
  (-1.0 <= v /\ v <= 1.0 ->
     resistance e' = np_clip (resistance e * 1) r_min r_max /\
     resistance e' = np_clip (resistance e) r_min r_max) /\
  (r_min <= r_max ->
     (r_min <= resistance e' /\ resistance e' <= r_max) /\
     forall (vs : list Q) (w' : W),
       let e'' := fst (pulses e' vs w') in
       r_min <= resistance e'' /\ resistance e'' <= r_max) /\
  (props e = MaterialProperties_default ->
     10e3 <= resistance e' /\ resistance e' <= 1e6).
Proof.
  intros Hlive r_min r_max e'.
  assert (Hlast : r_min <= r_max ->
     (r_min <= resistance e' /\ resistance e' <= r_max) /\
     forall (vs : list Q) (w' : W),
       r_min <= resistance (fst (pulses e' vs w')) /\
       resistance (fst (pulses e' vs w')) <= r_max).
  { intro Hord.
    pose proof (pulse_in_range e v w Hlive Hord) as Hin.
    pose proof (pulse_props e v w) as Hp.
    fold e' in Hin, Hp. split.
    - unfold in_range in Hin. rewrite Hp in Hin. exact Hin.
    - intros vs w'.
      assert (Hord' : range_ordered (props e'))
        by (unfold range_ordered; rewrite Hp; exact Hord).
      pose proof (pulses_keep_range vs e' w' Hord' Hin) as Hk.
      unfold in_range in Hk. rewrite pulses_props, Hp in Hk. exact Hk. }
  pose proof (pulse_live e v w Hlive) as E. simpl in E.
  assert (Hc : cycles e' = (cycles e + 1)%Z)
    by (unfold e'; rewrite E; reflexivity).
  assert (Hr : resistance e' = np_clip (pulse_step (resistance e) v) r_min r_max)
    by (unfold e'; rewrite E; reflexivity).
  split; [exact Hc |].
  split.
  { intro Hv. rewrite Hr. unfold pulse_step.
    apply Qgtb_gt in Hv. rewrite Hv. reflexivity. }
  split.
  { intro Hv. rewrite Hr. unfold pulse_step.
    assert (Hn : (v >? 1.0) = false) by (apply Qgtb_le; lra).
    apply Qltb_lt in Hv. rewrite Hn, Hv. reflexivity. }
  split.
  { intros [H1 H2]. rewrite Hr. unfold pulse_step.
    assert (Hn : (v >? 1.0) = false) by (apply Qgtb_le; lra).
    assert (Hm : (v <? -1.0) = false) by (apply Qltb_ge; lra).
    rewrite Hn, Hm, Qmult_one_id. split; reflexivity. }
  split; [exact Hlast |].
  intro Hdef.
  assert (Hord : r_min <= r_max)
    by (unfold r_min, r_max; rewrite Hdef; simpl; discriminate).
  destruct (Hlast Hord) as [Hb _].
  unfold r_min, r_max in Hb. rewrite Hdef in Hb. exact Hb.
Qed.

Lemma pulses_dead (vs : list Q) :
  forall (e : HfO2Memristor) (w : W),
    degraded e = true -> pulses e vs w = (e, w).
Proof.
  induction vs as [|v vs IH]; intros e w Hdead.
  - reflexivity.
  - simpl. unfold bind. rewrite pulse_dead by assumption.
    apply IH. exact Hdead.
Qed.

(** C2: on a degraded element every pulse, at any voltage, returns the
    element and the world as they were (no field changes, no draw is
    taken), every read returns the int 0, and this stays so after any
    train of further pulses.  [pulse] and [read] have no raising outcome. *)
Theorem degraded_is_absorbing (e : HfO2Memristor) (v : Q) (w : W) :
  degraded e = true ->
  pulse e v w = (e, w) /\
  read e v = PyInt 0 /\
  forall (vs : list Q) (w' : W) (v' : Q),
    pulses e vs w' = (e, w') /\
    degraded (fst (pulses e vs w')) = true /\
    read (fst (pulses e vs w')) v' = PyInt 0.
Proof.
  intros Hdead. split; [apply pulse_dead; exact Hdead |].
  split; [unfold read; rewrite Hdead; reflexivity |].
  intros vs w' v'. rewrite pulses_dead by assumption. simpl.
  repeat split; [exact Hdead |].
  unfold read. rewrite Hdead. reflexivity.
Qed.

Lemma len_app_one {A : Type} (l : list A) (x : A) :
  len (l ++ [x]) = (len l + 1)%Z.
Proof. unfold len. rewrite length_app. simpl. lia. Qed.

Lemma pulse_history_invariant (e : HfO2Memristor) (v : Q) (w : W) :
  history_invariant e -> history_invariant (fst (pulse e v w)).
Proof.
  intro Hinv. destruct (degraded e) eqn:E.
  - rewrite pulse_dead by assumption. exact Hinv.
  - rewrite pulse_live by assumption. unfold history_invariant in *.
    simpl. rewrite len_app_one, Hinv. reflexivity.
Qed.

(** C9: [len(history) == cycles + 1] holds for a newly constructed element
    (history is the one-element list of the initial resistance, cycles is
    0) and every pulse preserves it: a pulse on a live element adds one
    cycle and appends exactly one entry, the new resistance; a pulse on a
    degraded element changes neither; so it holds after every pulse train.
    [read] is a function of the element and returns only a number. *)
Theorem history_tracks_cycles :
  (forall (p : MaterialProperties) (target : option Q) (w : W),
     let e := fst (HfO2Memristor_init_with p target w) in
     history e = [resistance e] /\ cycles e = 0%Z /\ history_invariant e) /\
  (forall (e : HfO2Memristor) (v : Q) (w : W),
     history_invariant e -> history_invariant (fst (pulse e v w))) /\
  (forall (e : HfO2Memristor) (v : Q) (w : W),
     degraded e = false ->
     let e' := fst (pulse e v w) in
     cycles e' = (cycles e + 1)%Z /\
     history e' = history e ++ [resistance e']) /\
  (forall (e : HfO2Memristor) (v : Q) (w : W),
     degraded e = true ->
     let e' := fst (pulse e v w) in
     cycles e' = cycles e /\ history e' = history e) /\
  (forall (vs : list Q) (e : HfO2Memristor) (w : W),
     history_invariant e -> history_invariant (fst (pulses e vs w))).
Proof.
  split.
  { intros p target w e. subst e. unfold HfO2Memristor_init_with.
    destruct (hfo2_resistance_range p) as [r_min r_max].
    unfold bind, ret.
    destruct (np_random_normal 0 (hfo2_variability p / 2) w) as [noise w'].
    simpl. repeat split. }
  split; [exact pulse_history_invariant |].
  split.
  { intros e v w Hlive e'. subst e'.
    rewrite pulse_live by assumption. simpl. split; reflexivity. }
  split.
  { intros e v w Hdead e'. subst e'.
    rewrite pulse_dead by assumption. simpl. split; reflexivity. }
  induction vs as [|v vs IH]; intros e w Hinv.
  - exact Hinv.
  - simpl. unfold bind.
    pose proof (pulse_history_invariant e v w Hinv) as Hstep.
    destruct (pulse e v w) as [e1 w1]. simpl in Hstep.
    apply IH. exact Hstep.
Qed.

Lemma truthy_zero (q : Q) : q == 0 -> truthy q = false.
Proof.
  intro Hz. unfold truthy. apply negb_false_iff.
  apply Qeq_bool_iff. exact Hz.
Qed.

(** C10: a target of zero is falsy, so the constructor replaces it with
    the configured default (100 kOhm) before the logarithm and the
    sampling: constructing with target 0 and constructing with no target
    give the same element and leave the world in the same state. *)
Theorem zero_target_is_default (q : Q) (w : W) :
  q == 0 ->
  effective_target MaterialProperties_default (Some q) = 100e3 /\
  effective_target MaterialProperties_default None = 100e3 /\
  HfO2Memristor_init (Some q) w = HfO2Memristor_init None w.
Proof.
  intro Hz.
  assert (Ht : effective_target MaterialProperties_default (Some q) = 100e3).
  { unfold effective_target. rewrite truthy_zero by assumption. reflexivity. }
  split; [exact Ht |]. split; [reflexivity |].
  unfold HfO2Memristor_init, HfO2Memristor_init_with.
  rewrite Ht. reflexivity.
Qed.

(** ** Stochastic unit *)

Lemma consulted_nth (syns : list HfO2Memristor) :
  forall (inputs : list Q) (i : nat) (syn : HfO2Memristor) (x : Q),
    nth_error syns i = Some syn -> nth_error inputs i = Some x ->
    nth_error (consulted syns inputs) i = Some (x, syn).
Proof.
  unfold consulted.
  induction syns as [|s0 syns IH]; intros inputs i syn x Hs Hx.
  - destruct i; discriminate.
  - destruct inputs as [|x0 inputs]; [destruct i; discriminate |].
    destruct i as [|i]; simpl in *.
    + congruence.
    + apply IH; assumption.
Qed.

Lemma consulted_length (syns : list HfO2Memristor) (inputs : list Q) :
  length (consulted syns inputs) = Nat.min (length inputs) (length syns).
Proof.
  unfold consulted. rewrite length_combine, length_firstn. lia.
Qed.

Lemma fold_plus_shift (l : list Q) :
  forall a : Q, fold_left Qplus l a == a + fold_left Qplus l 0.
Proof.
  induction l as [|y ys IH]; intro a; simpl.
  - ring.
  - rewrite (IH (a + y)), (IH (0 + y)). ring.
Qed.

(** The loop reaches position [i] with the sum of the earlier terms, adds
    the term of position [i] and goes on with the later ones. *)
Lemma fold_left_at {A B : Type} (f : A -> B -> A) (l : list B) :
  forall (i : nat) (b : B) (a0 : A),
    nth_error l i = Some b ->
    fold_left f l a0
    = fold_left f (skipn (S i) l) (f (fold_left f (firstn i l) a0) b).
Proof.
  induction l as [|h t IH]; intros [|i] b a0 Hn; simpl in Hn;
    try discriminate.
  - injection Hn as ->. reflexivity.
  - simpl. apply IH. exact Hn.
Qed.

Lemma fold_terms_flags (b : bool) (syns : list HfO2Memristor) :
  forall (l : list Q) (a : Q),
    fold_left (fun acc pr => acc + current_term pr)
      (combine l (map (with_degraded b) syns)) a
    = fold_left (fun acc pr => acc + current_term pr) (combine l syns) a.
Proof.
  induction syns as [|s0 syns IH]; intros [|x l] a; simpl;
    try reflexivity.
  apply IH.
Qed.

Lemma total_current_flags (b : bool) (syns : list HfO2Memristor)
    (inputs : list Q) :
  total_current (map (with_degraded b) syns) inputs
  = total_current syns inputs.
Proof.
  unfold total_current, consulted. rewrite length_map.
  apply fold_terms_flags.
Qed.

(** C3, as the code has it: in [process] the current is accumulated
    position by position as [inputs[i] / synapses[i].resistance], read from
    the field and never through [read] or the degraded flag.  The loop
    reaches a degraded element at position [i] with the sum of the earlier
    terms, adds [inputs[i] / resistance] and goes on; the potential and the
    firing probability of the step are computed from that sum; the step is
    the same as on the unit whose elements are all marked live; and [read]
    on the degraded element returns 0 at every voltage, while on the same
    element marked live it returns [voltage / resistance]. *)
Theorem process_divides_by_raw_resistance
    (n : BayesianNeuron) (inputs : list Q) (i : nat)
    (syn : HfO2Memristor) (x : Q) (w : W) :
  nth_error (synapses n) i = Some syn ->
  nth_error inputs i = Some x ->
  degraded syn = true ->
  let c := consulted (synapses n) inputs in
  let add := fun (acc : Q) (pr : Q * HfO2Memristor) => acc + current_term pr in
  let current :=
    fold_left add (skipn (S i) c)
      (fold_left add (firstn i c) 0.0 + x / resistance syn) in
  let potential1 := 0.9 * potential n + 0.1 * current in
  let prob := activation potential1 (threshold n) in
  let revived :=
    with_synapses n (map (with_degraded false) (synapses n)) in
  nth_error c i = Some (x, syn) /\
  total_current (synapses n) inputs = current /\
  (fst (np_random_random w) < prob ->
     fst (fst (process n inputs w)) = prob) /\
  (~ fst (np_random_random w) < prob ->
     potential (snd (fst (process n inputs w))) = potential1) /\
  fst (fst (process revived inputs w)) = fst (fst (process n inputs w)) /\
  potential (snd (fst (process revived inputs w)))
    = potential (snd (fst (process n inputs w))) /\
  spike_count (snd (fst (process revived inputs w)))
    = spike_count (snd (fst (process n inputs w))) /\
  (forall v : Q, read syn v = PyInt 0) /\
  (forall v : Q,
     read (with_degraded false syn) v = PyFloat (v / resistance syn)).
Proof.
  intros Hs Hx Hdead c add current potential1 prob revived.
  pose proof (consulted_nth _ _ _ _ _ Hs Hx) as Hc. fold c in Hc.
  assert (Hcur : total_current (synapses n) inputs = current).
  { unfold total_current. fold c. fold add.
    rewrite (fold_left_at add c i (x, syn) 0.0 Hc). reflexivity. }
  assert (Hint : integrate n inputs = potential1)
    by (unfold integrate; rewrite Hcur; reflexivity).
  assert (Hrev : integrate revived inputs = potential1).
  { unfold integrate, revived. cbn [synapses potential with_synapses].
    rewrite total_current_flags, Hcur. reflexivity. }
  split; [exact Hc |]. split; [exact Hcur |].
  assert (Hsteps :
    (fst (np_random_random w) < prob ->
       fst (fst (process n inputs w)) = prob) /\
    (~ fst (np_random_random w) < prob ->
       potential (snd (fst (process n inputs w))) = potential1) /\
    fst (fst (process revived inputs w)) = fst (fst (process n inputs w)) /\
    potential (snd (fst (process revived inputs w)))
      = potential (snd (fst (process n inputs w))) /\
    spike_count (snd (fst (process revived inputs w)))
      = spike_count (snd (fst (process n inputs w)))).
  { unfold process, bind, ret. rewrite Hint, Hrev.
    cbn [threshold spike_count revived with_synapses]. fold prob.
    destruct (np_random_random w) as [u w1]. cbn [fst].
    destruct (u <? prob) eqn:E; cbn [fst snd potential spike_count].
    - apply Qltb_lt in E. repeat split; try reflexivity.
      intro Hn. contradiction.
    - apply Qltb_ge in E. repeat split; try reflexivity.
      intro Hlt. lra. }
  destruct Hsteps as (H1 & H2 & H3 & H4 & H5).
  split; [exact H1 |]. split; [exact H2 |]. split; [exact H3 |].
  split; [exact H4 |]. split; [exact H5 |].
  split; intro v; unfold read; [rewrite Hdead |]; reflexivity.
Qed.

(** C4: one [process] step sets the potential to
    [0.9 * old + 0.1 * total_current], takes the probability
    [1 / (1 + exp(-x))] with [x = (potential - threshold) * 5] and draws
    once; below the probability the unit fires (spike_count + 1, potential
    reset to 0, the probability returned), otherwise it returns 0 and the
    potential keeps the integrated value. *)
Theorem process_fires_or_integrates
    (n : BayesianNeuron) (inputs : list Q) (w : W) :
  let potential1 :=
    0.9 * potential n + 0.1 * total_current (synapses n) inputs in
  let prob := 1.0 / (1.0 + np_exp (- ((potential1 - threshold n) * 5))) in
  let u := fst (np_random_random w) in
  let result := fst (fst (process n inputs w)) in
  let n' := snd (fst (process n inputs w)) in
  snd (process n inputs w) = snd (np_random_random w) /\
  (u < prob ->
     result = prob /\
     spike_count n' = (spike_count n + 1)%Z /\
     potential n' = 0.0 /\ potential n' == 0) /\
  (~ u < prob ->
     result = 0.0 /\ result == 0 /\
     potential n' = potential1 /\
     spike_count n' = spike_count n).
Proof.
  intros potential1 prob u result n'.
  subst result n' u. unfold process, bind, ret.
  change (integrate n inputs) with potential1.
  change (activation potential1 (threshold n)) with prob.
  destruct (np_random_random w) as [u w']. simpl fst. simpl snd.
  destruct (u <? prob) eqn:E.
  - split; [reflexivity |]. split.
    + intros _. simpl. repeat split; reflexivity.
    + intro Hn. apply Qltb_lt in E. contradiction.
  - split; [reflexivity |]. split.
    + intro Hlt. apply Qltb_lt in Hlt. congruence.
    + intros _. simpl. repeat split; reflexivity.
Qed.

(** C8: [process] leaves the element bank as it was: the list of owned
    elements, hence every element's resistance, conductance, cycle count,
    degraded flag and history, is the same after the call, and so are the
    unit's id, layer and threshold; only potential and spike_count can
    differ. *)
Theorem process_leaves_elements
    (n : BayesianNeuron) (inputs : list Q) (w : W) :
  let n' := snd (fst (process n inputs w)) in
  synapses n' = synapses n /\
  (forall (i : nat) (syn : HfO2Memristor),
     nth_error (synapses n) i = Some syn ->
     exists syn', nth_error (synapses n') i = Some syn' /\
       resistance syn' = resistance syn /\
       filament syn' = filament syn /\
       cycles syn' = cycles syn /\
       degraded syn' = degraded syn /\
       history syn' = history syn) /\
  neuron_id n' = neuron_id n /\
  layer n' = layer n /\
  threshold n' = threshold n.
Proof.
  intro n'.
  assert (Hs : synapses n' = synapses n /\ neuron_id n' = neuron_id n /\
               layer n' = layer n /\ threshold n' = threshold n).
  { subst n'. unfold process, bind, ret.
    destruct (np_random_random w) as [u w'].
    destruct (u <? _); simpl; repeat split; reflexivity. }
  destruct Hs as (Hs & Hi & Hl & Ht).
  split; [exact Hs |].
  split; [| repeat split; assumption].
  intros i syn Hn. exists syn. rewrite Hs.
  repeat split; try reflexivity. exact Hn.
Qed.

(** ** Network *)

Lemma energy_quantum_value : energy_quantum == 1e-11.
Proof. reflexivity. Qed.

Lemma energy_quantum_pos : 0 < energy_quantum.
Proof. reflexivity. Qed.

Lemma thermal_simulation_frame (c : NeuromorphicChip) (ambient : Q) :
  let c' := snd (thermal_simulation c ambient) in
  chip_props c' = chip_props c /\ layers c' = layers c /\
  total_neurons c' = total_neurons c /\ power_draw c' = power_draw c /\
  temperature c' = ambient + power_draw c * 0.1 /\
  fst (thermal_simulation c ambient) = temperature c' - 273.
Proof. simpl. repeat split; reflexivity. Qed.

Lemma get_stats_cases (c : NeuromorphicChip) :
  (len (map resistance (all_synapses (layers c))) = 0%Z /\
   get_stats c = (Raised ZeroDivisionError, c)) \/
  (len (map resistance (all_synapses (layers c))) <> 0%Z /\
   exists st, get_stats c = (Returned st, snd (thermal_simulation c 300)) /\
     stat_temperature_C st = fst (thermal_simulation c 300) /\
     stat_power_W st = power_draw c /\
     stat_neurons st = total_neurons c /\
     stat_synapses st = len (all_synapses (layers c))).
Proof.
  unfold get_stats, int_truediv.
  destruct (len (map resistance (all_synapses (layers c))) =? 0)%Z eqn:E.
  - left. apply Z.eqb_eq in E. split; [exact E | reflexivity].
  - right. apply Z.eqb_neq in E. split; [exact E |].
    eexists. split; [reflexivity |]. simpl.
    repeat split. unfold len. rewrite length_map. reflexivity.
Qed.

Lemma len_zero_nil {A : Type} (l : list A) : len l = 0%Z <-> l = [].
Proof.
  unfold len. destruct l; simpl; split; intro H;
    try reflexivity; try discriminate; lia.
Qed.

Lemma len_map_resistance (l : list HfO2Memristor) :
  len (map resistance l) = len l.
Proof. unfold len. rewrite length_map. reflexivity. Qed.

Lemma process_random_spike_power (c : NeuromorphicChip) (w : W) :
  let c' := snd (fst (process_random_spike c w)) in
  power_draw c' = power_draw c \/
  power_draw c' = power_draw c + energy_quantum.
Proof.
  unfold process_random_spike, randint_from_zero, bind, ret.
  destruct (num_layers (chip_props c) <=? 0)%Z; [left; reflexivity |].
  destruct (np_random_randint 0 (num_layers (chip_props c)) w) as [l w1].
  destruct (neurons_per_layer (chip_props c) <=? 0)%Z; [left; reflexivity |].
  destruct (np_random_randint 0 (neurons_per_layer (chip_props c)) w1)
    as [n w2].
  destruct (np_random_vector 100 w2) as [ds w3].
  destruct (time_time w3) as [start w4].
  destruct (locate (layers c) l n) as [[[kl kn] nrn]|]; [| left; reflexivity].
  destruct (process nrn (map (fun d => d * 0.5) ds) w4) as [[spike nrn'] w5].
  destruct (time_time w5) as [stop w6].
  destruct (spike >? 0); [right | left]; reflexivity.
Qed.

Lemma process_random_spike_monotone (c : NeuromorphicChip) (w : W) :
  power_draw c <= power_draw (snd (fst (process_random_spike c w))).
Proof.
  pose proof energy_quantum_pos.
  destruct (process_random_spike_power c w) as [E | E];
    simpl in E; rewrite E; lra.
Qed.

Lemma drive_power (n : nat) :
  forall (c : NeuromorphicChip) (w : W),
    let c' := snd (fst (drive n c w)) in
    power_draw c <= power_draw c' /\
    exists k : nat, (k <= n)%nat /\
      power_draw c' == power_draw c + inject_Z (Z.of_nat k) * 1e-11.
Proof.
  induction n as [|n IH]; intros c w; simpl.
  - split; [lra |]. exists O. split; [lia |]. simpl. ring.
  - unfold bind.
    pose proof (process_random_spike_power c w) as Hp.
    pose proof (process_random_spike_monotone c w) as Hm.
    destruct (process_random_spike c w) as [[r c1] w1]. simpl in Hp, Hm.
    assert (Hone : exists j : nat, (j <= 1)%nat /\
              power_draw c1 == power_draw c + inject_Z (Z.of_nat j) * 1e-11).
    { destruct Hp as [E | E]; rewrite E.
      - exists O. split; [lia |]. simpl. ring.
      - exists 1%nat. split; [lia |]. rewrite energy_quantum_value.
        simpl. ring. }
    destruct Hone as (j & Hj & Ej).
    destruct r as [lat | e]; simpl.
    + destruct (IH c1 w1) as (Hle & k & Hk & Ek). simpl in Hle, Ek.
      split; [lra |]. exists (k + j)%nat. split; [lia |].
      rewrite Ek, Ej. rewrite Nat2Z.inj_add, inject_Z_plus. ring.
    + split; [exact Hm |]. exists j. split; [lia | exact Ej].
Qed.

Lemma chip_pulse_power (c : NeuromorphicChip) (l n s : Z) (v : Q) (w : W) :
  power_draw (snd (fst (chip_pulse c l n s v w))) = power_draw c.
Proof.
  unfold chip_pulse, bind, ret.
  destruct (locate (layers c) l n) as [[[kl kn] nrn]|]; [| reflexivity].
  destruct (py_index (length (synapses nrn)) s) as [ks|]; [| reflexivity].
  destruct (nth_error (synapses nrn) ks) as [syn|]; [| reflexivity].
  destruct (pulse syn v w) as [syn' w']. reflexivity.
Qed.

Lemma chip_process_power (c : NeuromorphicChip) (l n : Z) (inputs : list Q)
    (w : W) :
  power_draw (snd (fst (chip_process c l n inputs w))) = power_draw c.
Proof.
  unfold chip_process, bind, ret.
  destruct (locate (layers c) l n) as [[[kl kn] nrn]|]; [| reflexivity].
  destruct (process nrn inputs w) as [fired w']. reflexivity.
Qed.

(** C5: [power_draw] never goes down.  [thermal_simulation], [get_stats]
    and a [pulse] or [process] applied to a part of the chip leave it as it
    was; one [process_random_spike] leaves it unchanged or adds the quantum
    [1e-12 * 10 = 1e-11]; hence along any run of [process_random_spike]
    calls it is non-decreasing and ends a whole number of quanta above
    where it started. *)
Theorem power_draw_never_decreases :
  energy_quantum == 1e-11 /\
  (forall (c : NeuromorphicChip) (ambient : Q),
     power_draw (snd (thermal_simulation c ambient)) = power_draw c) /\
  (forall c : NeuromorphicChip,
     power_draw (snd (get_stats c)) = power_draw c) /\
  (forall (c : NeuromorphicChip) (l n s : Z) (v : Q) (w : W),
     power_draw (snd (fst (chip_pulse c l n s v w))) = power_draw c) /\
  (forall (c : NeuromorphicChip) (l n : Z) (inputs : list Q) (w : W),
     power_draw (snd (fst (chip_process c l n inputs w))) = power_draw c) /\
  (forall (c : NeuromorphicChip) (w : W),
     let c' := snd (fst (process_random_spike c w)) in
     (power_draw c' = power_draw c \/
      power_draw c' = power_draw c + energy_quantum) /\
     power_draw c <= power_draw c') /\
  (forall (n : nat) (c : NeuromorphicChip) (w : W),
     let c' := snd (fst (drive n c w)) in
     power_draw c <= power_draw c' /\
     exists k : nat, (k <= n)%nat /\
       power_draw c' == power_draw c + inject_Z (Z.of_nat k) * 1e-11).
Proof.
  split; [exact energy_quantum_value |].
  split; [intros c ambient; reflexivity |].
  split.
  { intro c. destruct (get_stats_cases c) as [[_ E] | [_ (st & E & _)]];
      rewrite E; reflexivity. }
  split; [exact chip_pulse_power |].
  split; [exact chip_process_power |].
  split.
  { intros c w c'. split.
    - apply process_random_spike_power.
    - apply process_random_spike_monotone. }
  exact drive_power.
Qed.

Lemma comprehension_length {A : Type} (n : nat) (body : nat -> Eff W A) :
  forall (i : nat) (w : W), length (fst (comprehension n body i w)) = n.
Proof.
  induction n as [|n IH]; intros i w; simpl.
  - reflexivity.
  - unfold bind, ret. destruct (body i w) as [x w1].
    specialize (IH (S i) w1).
    destruct (comprehension n body (S i) w1) as [xs w2].
    simpl in *. rewrite IH. reflexivity.
Qed.

Lemma build_layers_shape (k : nat) (per_layer : Z) :
  forall (layer_ : Z) (done : list (list BayesianNeuron)) (total : Z) (w : W),
    let built := fst (build_layers k per_layer layer_ done total w) in
    length (fst built) = (length done + k)%nat /\
    (Forall (fun row => length row = range_len per_layer) done ->
     Forall (fun row => length row = range_len per_layer) (fst built)) /\
    snd built = (total + Z.of_nat k * Z.of_nat (range_len per_layer))%Z.
Proof.
  induction k as [|k IH]; intros layer_ done total w; cbn [build_layers].
  - simpl. repeat split; [lia | tauto | lia].
  - cbv zeta. unfold bind.
    pose proof (comprehension_length (range_len per_layer)
                  (fun i => BayesianNeuron_init (total + Z.of_nat i)%Z layer_)
                  0 w) as Hlen.
    destruct (comprehension (range_len per_layer) _ 0 w) as [row w1].
    simpl in Hlen.
    destruct (IH (layer_ + 1)%Z (done ++ [row]) (total + len row)%Z w1)
      as (H1 & H2 & H3).
    repeat split.
    + rewrite H1, length_app. simpl. lia.
    + intro Hd. apply H2. apply Forall_app. split; [exact Hd |].
      constructor; [exact Hlen | constructor].
    + rewrite H3. unfold len. rewrite Hlen, Nat2Z.inj_succ. ring.
Qed.

Lemma comprehension_Forall {A : Type} (P : A -> Prop) (n : nat)
    (body : nat -> Eff W A) :
  (forall (i : nat) (w : W), P (fst (body i w))) ->
  forall (i : nat) (w : W), Forall P (fst (comprehension n body i w)).
Proof.
  intro Hbody. induction n as [|n IH]; intros i w; simpl.
  - constructor.
  - unfold bind, ret. pose proof (Hbody i w) as Hx.
    destruct (body i w) as [x w1].
    specialize (IH (S i) w1).
    destruct (comprehension n body (S i) w1) as [xs w2].
    simpl in *. constructor; assumption.
Qed.

Lemma BayesianNeuron_init_bank (id_ layer_ : Z) (w : W) :
  length (synapses (fst (BayesianNeuron_init id_ layer_ w))) = 100%nat.
Proof.
  unfold BayesianNeuron_init, bind, ret.
  pose proof (comprehension_length 100 (fun _ => HfO2Memristor_init None) 0 w)
    as Hlen.
  destruct (comprehension 100 _ 0 w) as [syns w1].
  destruct (np_random_uniform 0.3 0.7 w1) as [thr w2]. exact Hlen.
Qed.

Lemma build_layers_banks (k : nat) (per_layer : Z) :
  forall (layer_ : Z) (done : list (list BayesianNeuron)) (total : Z) (w : W),
    Forall (Forall full_bank) done ->
    Forall (Forall full_bank)
      (fst (fst (build_layers k per_layer layer_ done total w))).
Proof.
  induction k as [|k IH]; intros layer_ done total w Hd; cbn [build_layers].
  - exact Hd.
  - cbv zeta. unfold bind.
    pose proof (comprehension_Forall full_bank (range_len per_layer)
                  (fun i => BayesianNeuron_init (total + Z.of_nat i)%Z layer_)
                  (fun i w0 => BayesianNeuron_init_bank _ _ w0) 0 w) as Hrow.
    destruct (comprehension (range_len per_layer) _ 0 w) as [row w1].
    simpl in Hrow. apply IH. apply Forall_app. split; [exact Hd |].
    constructor; [exact Hrow | constructor].
Qed.

Lemma flat_map_length_uniform {A B : Type} (f : A -> list B) (k : nat)
    (l : list A) :
  Forall (fun x => length (f x) = k) l ->
  length (flat_map f l) = (length l * k)%nat.
Proof.
  induction 1 as [|x l Hx _ IH]; simpl.
  - reflexivity.
  - rewrite length_app, Hx, IH. reflexivity.
Qed.

(** Every constructed network holds layers * units-per-layer * 100
    elements. *)
Lemma chip_elements_count (p : MaterialProperties) (w : W) :
  len (all_synapses (layers (fst (NeuromorphicChip_init_with p w))))
  = (Z.of_nat (range_len (num_layers p))
     * Z.of_nat (range_len (neurons_per_layer p)) * 100)%Z.
Proof.
  unfold NeuromorphicChip_init_with, bind, ret.
  generalize (range_len (num_layers p)) as nl.
  generalize (neurons_per_layer p) as per_layer. intros per_layer nl.
  pose proof (build_layers_shape nl per_layer 0%Z [] 0%Z w) as (S1 & S2 & _).
  pose proof (build_layers_banks nl per_layer 0%Z [] 0%Z w (Forall_nil _))
    as Hb.
  specialize (S2 (Forall_nil _)).
  destruct (build_layers nl per_layer 0 [] 0 w) as [[ls tot] w1].
  cbn [fst snd layers length Nat.add] in *.
  generalize dependent (range_len per_layer). intros m S2.
  unfold all_synapses, len.
  rewrite (flat_map_length_uniform _ (m * 100)%nat).
  - rewrite S1. lia.
  - clear S1. induction ls as [|row ls IH]; constructor.
    + inversion S2 as [|? ? Hr _]; inversion Hb as [|? ? Hf _]; subst.
      apply flat_map_length_uniform. exact Hf.
    + inversion S2; inversion Hb; subst. apply IH; assumption.
Qed.

(** The default network: 8 * 1250 * 100 elements. *)
Lemma default_chip_elements (w : W) :
  len (all_synapses (layers (fst (NeuromorphicChip_init w)))) = 1000000%Z.
Proof.
  unfold NeuromorphicChip_init. rewrite chip_elements_count.
  unfold range_len. cbn [num_layers neurons_per_layer MaterialProperties_default].
  rewrite !Z2Nat.id by lia. reflexivity.
Qed.

Lemma locate_found (ls : list (list BayesianNeuron)) (l n : Z)
    (kl kn : nat) (nrn : BayesianNeuron) :
  locate ls l n = Some (kl, kn, nrn) ->
  exists row, nth_error ls kl = Some row /\ nth_error row kn = Some nrn.
Proof.
  unfold locate.
  destruct (py_index (length ls) l) as [kl0|]; [| discriminate].
  destruct (nth_error ls kl0) as [row|] eqn:Er; [| discriminate].
  destruct (py_index (length row) n) as [kn0|]; [| discriminate].
  destruct (nth_error row kn0) as [nrn0|] eqn:En; [| discriminate].
  intro H. injection H as <- <- <-. exists row. split; assumption.
Qed.

Lemma flat_map_list_set {A B : Type} (f : A -> list B) (l : list A) :
  forall (k : nat) (x y : A),
    nth_error l k = Some x -> f y = f x ->
    flat_map f (list_set l k y) = flat_map f l.
Proof.
  induction l as [|h t IH]; intros k x y Hn Hf.
  - reflexivity.
  - destruct k as [|k]; simpl in *.
    + injection Hn as ->. rewrite Hf. reflexivity.
    + rewrite (IH k x y Hn Hf). reflexivity.
Qed.

Lemma store_same_bank (ls : list (list BayesianNeuron)) (kl kn : nat)
    (row : list BayesianNeuron) (nrn nrn' : BayesianNeuron) :
  nth_error ls kl = Some row -> nth_error row kn = Some nrn ->
  synapses nrn' = synapses nrn ->
  all_synapses (store ls kl kn nrn') = all_synapses ls.
Proof.
  intros Hr Hn Hs. unfold store. rewrite Hr. unfold all_synapses.
  apply (flat_map_list_set _ ls kl row); [exact Hr |].
  apply (flat_map_list_set _ row kn nrn); assumption.
Qed.

Lemma process_same_bank (nrn : BayesianNeuron) (inputs : list Q) (w : W) :
  synapses (snd (fst (process nrn inputs w))) = synapses nrn.
Proof.
  unfold process, bind, ret.
  destruct (np_random_random w) as [u w'].
  destruct (u <? _); reflexivity.
Qed.

(** [process_random_spike] touches no element. *)
Lemma process_random_spike_elements (c : NeuromorphicChip) (w : W) :
  all_synapses (layers (snd (fst (process_random_spike c w))))
  = all_synapses (layers c).
Proof.
  unfold process_random_spike, randint_from_zero, bind, ret.
  destruct (num_layers (chip_props c) <=? 0)%Z; [reflexivity |].
  destruct (np_random_randint 0 (num_layers (chip_props c)) w) as [l w1].
  destruct (neurons_per_layer (chip_props c) <=? 0)%Z; [reflexivity |].
  destruct (np_random_randint 0 (neurons_per_layer (chip_props c)) w1)
    as [n w2].
  destruct (np_random_vector 100 w2) as [ds w3].
  destruct (time_time w3) as [start w4].
  destruct (locate (layers c) l n) as [[[kl kn] nrn]|] eqn:El;
    [| reflexivity].
  destruct (locate_found _ _ _ _ _ _ El) as (row & Hr & Hn).
  pose proof (process_same_bank nrn (map (fun d => d * 0.5) ds) w4) as Hs.
  destruct (process nrn (map (fun d => d * 0.5) ds) w4) as [[spike nrn'] w5].
  simpl in Hs.
  destruct (time_time w5) as [stop w6].
  destruct (spike >? 0); simpl;
    apply (store_same_bank _ _ _ row nrn); assumption.
Qed.

Lemma drive_elements (n : nat) :
  forall (c : NeuromorphicChip) (w : W),
    all_synapses (layers (snd (fst (drive n c w)))) = all_synapses (layers c).
Proof.
  induction n as [|n IH]; intros c w; simpl.
  - reflexivity.
  - unfold bind.
    pose proof (process_random_spike_elements c w) as He.
    destruct (process_random_spike c w) as [[r c1] w1]. simpl in He.
    destruct r as [lat | e]; simpl.
    + rewrite IH. exact He.
    + exact He.
Qed.

(** C6: [get_stats] changes nothing but the temperature: the layers (every
    unit with its potential, spike_count, threshold and element bank, every
    element with all its fields), the configuration, the unit count and
    [power_draw] are the same after the call, and when it returns the chip
    is exactly the one [thermal_simulation(300)] leaves, its temperature
    being [300 + power_draw * 0.1].  It returns whenever the chip has at
    least one element, in particular on the network [NeuromorphicChip()]
    builds and on every network a run of [process_random_spike] calls
    leads to from there; on a chip without elements the int division
    raises before [thermal_simulation] is reached and the chip is
    untouched. *)
Theorem get_stats_only_sets_temperature (c : NeuromorphicChip) :
  let c' := snd (get_stats c) in
  layers c' = layers c /\
  power_draw c' = power_draw c /\
  chip_props c' = chip_props c /\
  total_neurons c' = total_neurons c /\
  (forall st : Stats, fst (get_stats c) = Returned st ->
     c' = snd (thermal_simulation c 300) /\
     temperature c' = 300 + power_draw c * 0.1 /\
     stat_temperature_C st = temperature c' - 273 /\
     stat_power_W st = power_draw c) /\
  (all_synapses (layers c) <> [] ->
     exists st : Stats, fst (get_stats c) = Returned st) /\
  (forall (n : nat) (w : W),
     let built := NeuromorphicChip_init w in
     let c1 := snd (fst (drive n (fst built) (snd built))) in
     len (all_synapses (layers c1)) = 1000000%Z /\
     exists st : Stats, fst (get_stats c1) = Returned st) /\
  (all_synapses (layers c) = [] ->
     get_stats c = (Raised ZeroDivisionError, c)).
Proof.
  intro c'. subst c'.
  assert (Hreach : forall (n : nat) (w : W),
     let built := NeuromorphicChip_init w in
     let c1 := snd (fst (drive n (fst built) (snd built))) in
     len (all_synapses (layers c1)) = 1000000%Z /\
     exists st : Stats, fst (get_stats c1) = Returned st).
  { intros n w built c1.
    assert (Hlen : len (all_synapses (layers c1)) = 1000000%Z).
    { unfold c1, built. rewrite drive_elements. apply default_chip_elements. }
    split; [exact Hlen |].
    destruct (get_stats_cases c1) as [[Hz _] | [_ (st & E & _)]].
    - rewrite len_map_resistance, Hlen in Hz. discriminate.
    - exists st. rewrite E. reflexivity. }
  destruct (get_stats_cases c) as [[Hz E] | [Hnz (st & E & Ht & Hp & _)]];
    rewrite E; simpl.
  - do 4 (split; [reflexivity |]).
    split; [intros st H; discriminate |].
    split.
    { intro Hne. exfalso. apply Hne.
      rewrite len_map_resistance in Hz. apply len_zero_nil. exact Hz. }
    split; [exact Hreach | reflexivity].
  - do 4 (split; [reflexivity |]).
    split.
    { intros st0 H. injection H as <-.
      split; [reflexivity |]. split; [reflexivity |].
      split; [exact Ht | exact Hp]. }
    split; [intros _; exists st; reflexivity |].
    split; [exact Hreach |].
    intro Hnil. exfalso. apply Hnz.
    rewrite len_map_resistance. apply len_zero_nil. exact Hnil.
Qed.

End Properties.

(** * Further properties of the element *)

Section ElementFacts.

Context {NP : NumPy} {W : Type} {WD : World W}.

Lemma init_fields (p : MaterialProperties) (target : option Q) (w : W) :
  let r := np_clip
             (pow10 (np_log10 (effective_target p target)
                     + fst (np_random_normal 0 (hfo2_variability p / 2) w)))
             (fst (hfo2_resistance_range p) * 0.9)
             (snd (hfo2_resistance_range p) * 1.1) in
  HfO2Memristor_init_with p target w
  = ({| props := p; resistance := r; filament := 1.0 / r; cycles := 0;
        degraded := false; history := [r] |},
     snd (np_random_normal 0 (hfo2_variability p / 2) w)).
Proof.
  unfold HfO2Memristor_init_with.
  destruct (hfo2_resistance_range p) as [r_min r_max]. unfold bind, ret.
  destruct (np_random_normal 0 (hfo2_variability p / 2) w) as [noise w1].
  reflexivity.
Qed.

(** X1: a constructed element starts inside the clip window.  For a
    target that is omitted, zero (both give the default target) or
    positive, and whatever the sampled noise, the resistance after
    construction lies in [0.9 * r_min, 1.1 * r_max] = [9000, 1100000]. *)
Theorem construction_window (target : option Q) (w : W) :
  0 < effective_target MaterialProperties_default target ->
  let e := fst (HfO2Memristor_init target w) in
  9000 <= resistance e /\ resistance e <= 1100000 /\
  in_construction_window e.
Proof.
  intros _ e. subst e. unfold HfO2Memristor_init. rewrite init_fields.
  unfold in_construction_window. cbn [fst props resistance].
  match goal with |- context [np_clip ?x ?lo ?hi] =>
    destruct (np_clip_bounds x lo hi) as [Hlo Hhi];
      [vm_compute; discriminate |]
  end.
  split; [eapply Qle_trans; [| exact Hlo]; vm_compute; discriminate |].
  split; [eapply Qle_trans; [exact Hhi |]; vm_compute; discriminate |].
  split; assumption.
Qed.

Lemma pulse_conductance (e : HfO2Memristor) (v : Q) (w : W) :
  conductance_consistent e -> conductance_consistent (fst (pulse e v w)).
Proof.
  intro Hc. destruct (degraded e) eqn:E.
  - rewrite pulse_dead by assumption. exact Hc.
  - rewrite pulse_live by assumption. reflexivity.
Qed.

(** X2: the stored conductance stays the reciprocal of the stored
    resistance: it is so after construction, after a pulse on a live
    element whatever it held before, and every pulse train keeps it. *)
Theorem conductance_follows_resistance :
  (forall (p : MaterialProperties) (target : option Q) (w : W),
     conductance_consistent (fst (HfO2Memristor_init_with p target w))) /\
  (forall (e : HfO2Memristor) (v : Q) (w : W),
     degraded e = false -> conductance_consistent (fst (pulse e v w))) /\
  (forall (vs : list Q) (e : HfO2Memristor) (w : W),
     conductance_consistent e ->
     conductance_consistent (fst (pulses e vs w))).
Proof.
  split; [intros p target w; rewrite init_fields; reflexivity |].
  split.
  { intros e v w Hlive. rewrite pulse_live by assumption. reflexivity. }
  induction vs as [|v vs IH]; intros e w Hc.
  - exact Hc.
  - simpl. unfold bind.
    pose proof (pulse_conductance e v w Hc) as Hstep.
    destruct (pulse e v w) as [e1 w1]. apply IH. exact Hstep.
Qed.

Lemma roll_below_threshold (c : Z) (w : W) :
  (c <= 10000)%Z -> degradation_roll c w = (false, w).
Proof.
  intro Hc. unfold degradation_roll.
  destruct (c >? 10000)%Z eqn:E; [| reflexivity].
  rewrite Z.gtb_ltb in E. apply Z.ltb_lt in E. lia.
Qed.

Lemma roll_above_threshold (c : Z) (w : W) :
  (10000 < c)%Z ->
  degradation_roll c w
  = (fst (np_random_random w) <? 0.0001, snd (np_random_random w)).
Proof.
  intro Hc. unfold degradation_roll, bind, ret.
  destruct (c >? 10000)%Z eqn:E.
  - destruct (np_random_random w); reflexivity.
  - rewrite Z.gtb_ltb in E. apply Z.ltb_ge in E. lia.
Qed.

(** X3: wear-out needs more than 10000 cycles.  A pulse that brings a live
    element to at most 10000 cycles leaves it live and takes no draw from
    the generator; a pulse that brings it above 10000 takes exactly one
    draw and degrades the element exactly when that draw is below
    0.0001. *)
Theorem degradation_threshold (e : HfO2Memristor) (v : Q) (w : W) :
  degraded e = false ->
  ((cycles e < 10000)%Z ->
     degraded (fst (pulse e v w)) = false /\ snd (pulse e v w) = w) /\
  ((10000 <= cycles e)%Z ->
     snd (pulse e v w) = snd (np_random_random w) /\
     (degraded (fst (pulse e v w)) = true
      <-> fst (np_random_random w) < 0.0001)).
Proof.
  intro Hlive. rewrite pulse_live by assumption. simpl. split.
  - intro Hc. rewrite roll_below_threshold by lia. split; reflexivity.
  - intro Hc. rewrite roll_above_threshold by lia. simpl.
    split; [reflexivity | apply Qltb_lt].
Qed.

(** X4: the direction of a pulse.  On a live element whose resistance is
    non-negative and inside an ordered range, a SET pulse (above 1 V) never
    raises the resistance, a RESET pulse (below -1 V) never lowers it, and
    a pulse in [-1, 1] leaves it exactly as it was. *)
Theorem pulse_direction (e : HfO2Memristor) (v : Q) (w : W) :
  degraded e = false ->
  in_range e ->
  0 <= resistance e ->
  let e' := fst (pulse e v w) in
  (1.0 < v -> resistance e' <= resistance e) /\
  (v < -1.0 -> resistance e <= resistance e') /\
  (-1.0 <= v /\ v <= 1.0 -> resistance e' = resistance e).
Proof.
  intros Hlive [Hlo Hhi] Hpos e'. subst e'.
  rewrite pulse_live by assumption. simpl.
  assert (Hord : fst (hfo2_resistance_range (props e))
                 <= snd (hfo2_resistance_range (props e))) by lra.
  unfold pulse_step. split; [| split].
  - intro Hv. apply Qgtb_gt in Hv. rewrite Hv.
    unfold np_clip, np_minimum, np_maximum.
    destruct (_ <? fst _) eqn:E1; destruct (snd _ <? _) eqn:E2;
      try apply Qltb_lt in E1; try apply Qltb_lt in E2;
      try apply Qltb_ge in E1; try apply Qltb_ge in E2; lra.
  - intro Hv.
    assert (Hn : (v >? 1.0) = false) by (apply Qgtb_le; lra).
    apply Qltb_lt in Hv. rewrite Hn, Hv.
    unfold np_clip, np_minimum, np_maximum.
    destruct (_ <? fst _) eqn:E1; destruct (snd _ <? _) eqn:E2;
      try apply Qltb_lt in E1; try apply Qltb_lt in E2;
      try apply Qltb_ge in E1; try apply Qltb_ge in E2; lra.
  - intros [H1 H2].
    assert (Hn : (v >? 1.0) = false) by (apply Qgtb_le; lra).
    assert (Hm : (v <? -1.0) = false) by (apply Qltb_ge; lra).
    rewrite Hn, Hm. apply np_clip_inside; assumption.
Qed.

(** X5: the ends of the range are fixed points.  With [0 < r_min <= r_max],
    a SET pulse on a live element that sits at [r_min] leaves it at
    [r_min], and a RESET pulse on one that sits at [r_max] leaves it at
    [r_max]. *)
Theorem range_ends_are_fixed (e : HfO2Memristor) (v : Q) (w : W) :
  degraded e = false ->
  0 < fst (hfo2_resistance_range (props e)) ->
  fst (hfo2_resistance_range (props e))
    <= snd (hfo2_resistance_range (props e)) ->
  let e' := fst (pulse e v w) in
  (1.0 < v -> resistance e = fst (hfo2_resistance_range (props e)) ->
     resistance e' = fst (hfo2_resistance_range (props e))) /\
  (v < -1.0 -> resistance e = snd (hfo2_resistance_range (props e)) ->
     resistance e' = snd (hfo2_resistance_range (props e))).
Proof.
  intros Hlive Hpos Hord e'. subst e'.
  rewrite pulse_live by assumption. simpl. unfold pulse_step. split.
  - intros Hv Hr. apply Qgtb_gt in Hv. rewrite Hv, Hr.
    unfold np_clip, np_minimum, np_maximum.
    destruct (_ <? fst _) eqn:E1.
    + destruct (snd _ <? fst _) eqn:E2; [| reflexivity].
      apply Qltb_lt in E2. lra.
    + apply Qltb_ge in E1. lra.
  - intros Hv Hr.
    assert (Hn : (v >? 1.0) = false) by (apply Qgtb_le; lra).
    apply Qltb_lt in Hv. rewrite Hn, Hv, Hr.
    unfold np_clip, np_minimum, np_maximum.
    destruct (_ <? fst _) eqn:E1.
    + apply Qltb_lt in E1. lra.
    + destruct (snd _ <? _) eqn:E2; [reflexivity |].
      apply Qltb_ge in E2. lra.
Qed.

Lemma pulses_cons (e : HfO2Memristor) (v : Q) (vs : list Q) (w : W) :
  pulses e (v :: vs) w
  = pulses (fst (pulse e v w)) vs (snd (pulse e v w)).
Proof.
  simpl. unfold bind. destruct (pulse e v w) as [e1 w1]. reflexivity.
Qed.

Lemma set_steps_descend (n : nat) (y : Q) :
  0 <= y ->
  0 <= Nat.iter n (fun r => r * 0.97) y /\
  Nat.iter n (fun r => r * 0.97) y <= y.
Proof.
  intro Hy. induction n as [|n [IH0 IH1]]; simpl.
  - split; lra.
  - split; lra.
Qed.

(** X6: a train of [n] SET pulses is [n] multiplications by 0.97.  On a
    live element inside a range with [0 <= r_min], if the train keeps the
    cycle count at or below 10000 and the resistance multiplied [n] times
    by 0.97 is still at or above [r_min], then no clip and no wear-out
    roll intervenes: after the train the resistance is exactly that
    product, the cycle count and the history have grown by [n], the
    element is still live and no random draw was taken. *)
Theorem set_train_is_geometric (n : nat) :
  forall (e : HfO2Memristor) (v : Q) (w : W),
    degraded e = false ->
    1.0 < v ->
    in_range e ->
    0 <= fst (hfo2_resistance_range (props e)) ->
    (cycles e + Z.of_nat n <= 10000)%Z ->
    fst (hfo2_resistance_range (props e))
      <= Nat.iter n (fun r => r * 0.97) (resistance e) ->
    let e' := fst (pulses e (train v n) w) in
    resistance e' = Nat.iter n (fun r => r * 0.97) (resistance e) /\
    cycles e' = (cycles e + Z.of_nat n)%Z /\
    len (history e') = (len (history e) + Z.of_nat n)%Z /\
    degraded e' = false /\
    snd (pulses e (train v n) w) = w.
Proof.
  induction n as [|n IH]; intros e v w Hlive Hv [Hlo Hhi] Hmin Hcyc Hfloor.
  - simpl. repeat split; try lia; assumption.
  - unfold train. cbn [repeat]. fold (train v n).
    rewrite pulses_cons.
    rewrite Nat.iter_succ_r in Hfloor |- *.
    set (rmin := fst (hfo2_resistance_range (props e))) in *.
    set (rmax := snd (hfo2_resistance_range (props e))) in *.
    assert (Hr : 0 <= resistance e) by lra.
    destruct (set_steps_descend n (resistance e * 0.97)) as [_ Hdesc];
      [lra |].
    assert (Hstep : rmin <= resistance e * 0.97) by lra.
    pose proof (pulse_live e v w Hlive) as E. cbv zeta in E.
    rewrite roll_below_threshold in E by lia.
    fold rmin rmax in E.
    assert (Hps : pulse_step (resistance e) v = resistance e * 0.97).
    { unfold pulse_step. apply Qgtb_gt in Hv. rewrite Hv. reflexivity. }
    rewrite Hps in E.
    rewrite (np_clip_inside (resistance e * 0.97) rmin rmax) in E
      by (try exact Hstep; lra).
    rewrite E. cbn [fst snd].
    match goal with |- context [pulses ?e1 _ _] => set (e1' := e1) end.
    specialize (IH e1' v w).
    assert (Hin1 : in_range e1')
      by (unfold in_range, e1'; simpl; fold rmin rmax; lra).
    assert (Hfl1 : fst (hfo2_resistance_range (props e1'))
                   <= Nat.iter n (fun r => r * 0.97) (resistance e1'))
      by (unfold e1'; simpl; fold rmin; exact Hfloor).
    destruct (IH eq_refl Hv Hin1 Hmin ltac:(unfold e1'; simpl; lia) Hfl1)
      as (R1 & R2 & R3 & R4 & R5).
    split; [rewrite R1; reflexivity |].
    split; [rewrite R2; unfold e1'; simpl; lia |].
    split.
    { rewrite R3. unfold e1'. cbn [history]. rewrite len_app_one. lia. }
    split; [exact R4 | exact R5].
Qed.

Lemma pulse_bookkeeping (e : HfO2Memristor) (v : Q) (w : W) :
  let e' := fst (pulse e v w) in
  (cycles e <= cycles e' <= cycles e + 1)%Z /\
  (exists tail, history e' = history e ++ tail /\
     len tail = (cycles e' - cycles e)%Z) /\
  (degraded e = true -> degraded e' = true).
Proof.
  destruct (degraded e) eqn:E.
  - rewrite pulse_dead by assumption. simpl.
    split; [lia |]. split; [| intros _; exact E].
    exists []. rewrite app_nil_r. split; [reflexivity | unfold len; simpl; lia].
  - rewrite pulse_live by assumption. simpl.
    split; [lia |]. split; [| discriminate].
    eexists. split; [reflexivity |]. unfold len. simpl. lia.
Qed.

(** X7: bookkeeping along any pulse train.  The cycle count never goes
    down and grows by at most one per pulse; the history is only appended
    to, by exactly as many entries as cycles were counted; the
    configuration is kept; and an element that is degraded stays
    degraded. *)
Theorem pulse_train_bookkeeping (vs : list Q) :
  forall (e : HfO2Memristor) (w : W),
    let e' := fst (pulses e vs w) in
    (cycles e <= cycles e' <= cycles e + len vs)%Z /\
    (exists tail, history e' = history e ++ tail /\
       len tail = (cycles e' - cycles e)%Z) /\
    props e' = props e /\
    (degraded e = true -> degraded e' = true).
Proof.
  induction vs as [|v vs IH]; intros e w.
  - simpl. split; [unfold len; simpl; lia |].
    split; [exists []; rewrite app_nil_r; split;
            [reflexivity | unfold len; simpl; lia] |].
    split; [reflexivity | tauto].
  - cbv zeta. rewrite pulses_cons.
    destruct (pulse_bookkeeping e v w) as (C1 & (t1 & H1 & L1) & D1).
    pose proof (pulse_props e v w) as P1.
    destruct (IH (fst (pulse e v w)) (snd (pulse e v w)))
      as (C2 & (t2 & H2 & L2) & P2 & D2).
    split.
    { unfold len in *. simpl length. lia. }
    split.
    { exists (t1 ++ t2). rewrite H2, H1, app_assoc. split; [reflexivity |].
      unfold len in *. rewrite length_app. lia. }
    split; [rewrite P2; exact P1 |].
    intro Hd. apply D2, D1, Hd.
Qed.

(** X8: the read current of a live element is bounded by the range: for a
    non-negative voltage [v] and a resistance inside [r_min, r_max] with
    [0 < r_min], [read] returns the float [v / resistance], which is not
    negative and lies between [v / r_max] and [v / r_min]. *)
Theorem read_current_bounds (e : HfO2Memristor) (v : Q) :
  degraded e = false ->
  in_range e ->
  0 < fst (hfo2_resistance_range (props e)) ->
  0 <= v ->
  read e v = PyFloat (v / resistance e) /\
  0 <= v / resistance e /\
  v / snd (hfo2_resistance_range (props e)) <= v / resistance e /\
  v / resistance e <= v / fst (hfo2_resistance_range (props e)).
Proof.
  intros Hlive [Hlo Hhi] Hpos Hv.
  set (rmin := fst (hfo2_resistance_range (props e))) in *.
  set (rmax := snd (hfo2_resistance_range (props e))) in *.
  assert (Hr : 0 < resistance e) by lra.
  assert (Hmul : v / resistance e * resistance e == v)
    by (field; lra).
  assert (Hi : 0 <= v / resistance e).
  { apply Qle_shift_div_l; [exact Hr | lra]. }
  split; [unfold read; rewrite Hlive; reflexivity |].
  split; [exact Hi |].
  split.
  - apply Qle_shift_div_r; [lra | nra].
  - apply Qle_shift_div_l; [exact Hpos | nra].
Qed.

(** X9: with an inverted range ([r_max < r_min]) the clip of [pulse]
    returns its upper argument: every pulse on a live element sets the
    resistance to [r_max], whatever the voltage and the old resistance. *)
Theorem inverted_range_pins_resistance (e : HfO2Memristor) (v : Q) (w : W) :
  degraded e = false ->
  snd (hfo2_resistance_range (props e))
    < fst (hfo2_resistance_range (props e)) ->
  resistance (fst (pulse e v w)) = snd (hfo2_resistance_range (props e)).
Proof.
  intros Hlive Hinv. rewrite pulse_live by assumption. simpl.
  unfold np_clip, np_minimum, np_maximum.
  destruct (_ <? fst _) eqn:E1.
  - apply Qltb_lt in Hinv. rewrite Hinv. reflexivity.
  - apply Qltb_ge in E1.
    assert (E2 : (snd (hfo2_resistance_range (props e))
                  <? pulse_step (resistance e) v) = true)
      by (apply Qltb_lt; lra).
    rewrite E2. reflexivity.
Qed.

End ElementFacts.

(** * Further properties of the unit *)

Section UnitFacts.

Context {NP : NumPy} {W : Type} {WD : World W}.

Lemma consulted_extra (syns : list HfO2Memristor) (inputs extra : list Q) :
  (length syns <= length inputs)%nat ->
  consulted syns (inputs ++ extra) = consulted syns inputs.
Proof.
  intro Hlen. unfold consulted. rewrite firstn_app.
  replace (length syns - length inputs)%nat with O by lia.
  simpl. rewrite app_nil_r. reflexivity.
Qed.

Lemma consulted_short (syns : list HfO2Memristor) :
  forall inputs : list Q,
    consulted (firstn (length inputs) syns) inputs = consulted syns inputs.
Proof.
  unfold consulted.
  induction syns as [|s0 syns IH]; intros [|x inputs]; simpl;
    try reflexivity.
  rewrite IH. reflexivity.
Qed.

(** X10: [process] consults the common prefix of the input vector and the
    element bank.  Entries of the input vector beyond the bank size never
    matter (the whole step, draw included, is the same without them); with
    a short vector only the first [len(inputs)] elements are used; with an
    empty vector the current is the initial [0.0], so the potential only
    decays. *)
Theorem process_consults_common_prefix
    (n : BayesianNeuron) (inputs extra : list Q) (w : W) :
  ((length (synapses n) <= length inputs)%nat ->
     process n (inputs ++ extra) w = process n inputs w) /\
  total_current (synapses n) inputs
    = total_current (firstn (length inputs) (synapses n)) inputs /\
  length (consulted (synapses n) inputs)
    = Nat.min (length inputs) (length (synapses n)) /\
  total_current (synapses n) [] = 0.0 /\
  integrate n [] = 0.9 * potential n + 0.1 * 0.0.
Proof.
  split.
  { intro Hlen. unfold process, integrate, total_current.
    rewrite consulted_extra by assumption. reflexivity. }
  split.
  { unfold total_current. rewrite consulted_short. reflexivity. }
  split; [apply consulted_length |].
  assert (H0 : total_current (synapses n) [] = 0.0).
  { unfold total_current, consulted. rewrite firstn_nil. reflexivity. }
  split; [exact H0 |]. unfold integrate. rewrite H0. reflexivity.
Qed.

(** X11: the return value of [process] tells whether the unit fired.  When
    the uniform draw is not negative, the result is positive exactly when
    the draw was below the probability; in that case the result is the
    probability, the spike was counted and the potential reset; otherwise
    the result is [0.0], the spike count is as before and the potential
    holds the integrated value. *)
Theorem process_result_signals_spike
    (n : BayesianNeuron) (inputs : list Q) (w : W) :
  0 <= fst (np_random_random w) ->
  let prob := activation (integrate n inputs) (threshold n) in
  let result := fst (fst (process n inputs w)) in
  let n' := snd (fst (process n inputs w)) in
  (0 < result <-> fst (np_random_random w) < prob) /\
  (0 < result ->
     result = prob /\
     spike_count n' = (spike_count n + 1)%Z /\
     potential n' = 0.0) /\
  (~ 0 < result ->
     result = 0.0 /\
     spike_count n' = spike_count n /\
     potential n' = integrate n inputs) /\
  (spike_count n <= spike_count n' <= spike_count n + 1)%Z.
Proof.
  intros Hdraw prob result n'. subst result n'.
  unfold process, bind, ret. fold prob.
  destruct (np_random_random w) as [u w1]. cbn [fst] in Hdraw |- *.
  destruct (u <? prob) eqn:E; cbn [fst snd spike_count potential].
  - apply Qltb_lt in E.
    assert (Hpos : 0 < prob) by lra.
    split; [tauto |]. split; [intros _; repeat split |].
    split; [intro Hn; contradiction | lia].
  - apply Qltb_ge in E.
    assert (Hz : ~ 0 < 0.0) by (intro H; discriminate H).
    split; [split; [intro H; contradiction | intro H; lra] |].
    split; [intro H; contradiction |].
    split; [intros _; repeat split | lia].
Qed.

End UnitFacts.

(** * Further properties of the network *)

Section NetworkFacts.

Context {NP : NumPy} {W : Type} {WD : World W}.

Lemma init_default_pristine (target : option Q) (w : W) :
  pristine (fst (HfO2Memristor_init target w)).
Proof.
  unfold HfO2Memristor_init. rewrite init_fields. unfold pristine.
  cbn [fst props degraded cycles history filament resistance].
  do 5 (split; [reflexivity |]).
  match goal with |- context [np_clip ?x ?lo ?hi] =>
    destruct (np_clip_bounds x lo hi) as [Hlo Hhi];
      [vm_compute; discriminate |]
  end.
  split.
  - eapply Qle_trans; [| exact Hlo]. vm_compute. discriminate.
  - eapply Qle_trans; [exact Hhi |]. vm_compute. discriminate.
Qed.

Lemma comprehension_nth {A : Type} (P : nat -> A -> Prop) (n : nat)
    (body : nat -> Eff W A) :
  (forall (i : nat) (w : W), P i (fst (body i w))) ->
  forall (i0 : nat) (w : W) (j : nat) (x : A),
    nth_error (fst (comprehension n body i0 w)) j = Some x ->
    P (i0 + j)%nat x.
Proof.
  intro Hbody. induction n as [|n IH]; intros i0 w j x Hn; simpl in Hn.
  - destruct j; discriminate.
  - unfold bind, ret in Hn. pose proof (Hbody i0 w) as Hx.
    destruct (body i0 w) as [x0 w1].
    specialize (IH (S i0) w1).
    destruct (comprehension n body (S i0) w1) as [xs w2].
    simpl in *. destruct j as [|j]; simpl in Hn.
    + injection Hn as <-. rewrite Nat.add_0_r. exact Hx.
    + replace (i0 + S j)%nat with (S i0 + j)%nat by lia.
      apply IH. exact Hn.
Qed.

Lemma BayesianNeuron_init_fields (id_ layer_ : Z) (w : W) :
  let nrn := fst (BayesianNeuron_init id_ layer_ w) in
  neuron_id nrn = id_ /\ layer nrn = layer_ /\ pristine_unit nrn.
Proof.
  unfold BayesianNeuron_init, bind, ret.
  pose proof (comprehension_length 100 (fun _ => HfO2Memristor_init None) 0 w)
    as Hlen.
  pose proof (comprehension_Forall pristine 100
                (fun _ => HfO2Memristor_init None)
                (fun _ w0 => init_default_pristine None w0) 0 w) as Hall.
  destruct (comprehension 100 _ 0 w) as [syns w1].
  destruct (np_random_uniform 0.3 0.7 w1) as [thr w2].
  simpl in *. unfold pristine_unit. simpl. repeat split; assumption.
Qed.

Lemma build_layers_numbered (k : nat) (per_layer : Z) :
  forall (layer_ : Z) (done : list (list BayesianNeuron)) (total : Z) (w : W),
    layer_ = Z.of_nat (length done) ->
    total = (Z.of_nat (length done) * Z.of_nat (range_len per_layer))%Z ->
    numbered (range_len per_layer) done ->
    numbered (range_len per_layer)
      (fst (fst (build_layers k per_layer layer_ done total w))).
Proof.
  induction k as [|k IH]; intros layer_ done total w Hl Ht Hd;
    cbn [build_layers].
  - exact Hd.
  - cbv zeta. unfold bind.
    pose proof (comprehension_length (range_len per_layer)
                  (fun i => BayesianNeuron_init (total + Z.of_nat i)%Z layer_)
                  0 w) as Hlen.
    pose proof (comprehension_nth
                  (fun i nrn => neuron_id nrn = (total + Z.of_nat i)%Z /\
                                layer nrn = layer_ /\ pristine_unit nrn)
                  (range_len per_layer)
                  (fun i => BayesianNeuron_init (total + Z.of_nat i)%Z layer_)
                  (fun i w0 => BayesianNeuron_init_fields _ _ w0) 0 w)
      as Hrow.
    destruct (comprehension (range_len per_layer) _ 0 w) as [row w1].
    simpl in Hlen, Hrow.
    apply IH.
    + rewrite length_app. simpl. lia.
    + rewrite length_app. simpl. unfold len. rewrite Hlen. lia.
    + intros l row' i nrn Hr Hn.
      destruct (Nat.lt_ge_cases l (length done)) as [Hlt | Hge].
      * rewrite nth_error_app1 in Hr by exact Hlt.
        exact (Hd l row' i nrn Hr Hn).
      * rewrite nth_error_app2 in Hr by exact Hge.
        destruct (l - length done)%nat as [|m] eqn:Em.
        -- simpl in Hr. injection Hr as <-.
           destruct (Hrow i nrn Hn) as (Hi & Hly & Hp).
           assert (l = length done) by lia. subst l.
           repeat split; [lia | congruence | apply Hp ..].
        -- destruct m; discriminate.
Qed.

Lemma build_layers_Forall (P : BayesianNeuron -> Prop) (k : nat)
    (per_layer : Z) :
  (forall (id_ layer_ : Z) (w : W), P (fst (BayesianNeuron_init id_ layer_ w))) ->
  forall (layer_ : Z) (done : list (list BayesianNeuron)) (total : Z) (w : W),
    Forall (Forall P) done ->
    Forall (Forall P)
      (fst (fst (build_layers k per_layer layer_ done total w))).
Proof.
  intro HP.
  induction k as [|k IH]; intros layer_ done total w Hd; cbn [build_layers].
  - exact Hd.
  - cbv zeta. unfold bind.
    pose proof (comprehension_Forall P (range_len per_layer)
                  (fun i => BayesianNeuron_init (total + Z.of_nat i)%Z layer_)
                  (fun i w0 => HP _ _ w0) 0 w) as Hrow.
    destruct (comprehension (range_len per_layer) _ 0 w) as [row w1].
    simpl in Hrow. apply IH. apply Forall_app. split; [exact Hd |].
    constructor; [exact Hrow | constructor].
Qed.

Lemma init_with_layers (p : MaterialProperties) (w : W) :
  let built := fst (build_layers (range_len (num_layers p))
                      (neurons_per_layer p) 0 [] 0 w) in
  fst (NeuromorphicChip_init_with p w)
  = {| chip_props := p; layers := fst built; total_neurons := snd built;
       temperature := 300; power_draw := 0.0 |}.
Proof.
  unfold NeuromorphicChip_init_with, bind, ret.
  destruct (build_layers _ _ 0 [] 0 w) as [built w1]. reflexivity.
Qed.

Lemma init_with_shaped (p : MaterialProperties) (w : W) :
  shaped (fst (NeuromorphicChip_init_with p w)).
Proof.
  rewrite init_with_layers. unfold shaped. cbn [layers chip_props].
  destruct (build_layers_shape (range_len (num_layers p))
              (neurons_per_layer p) 0%Z [] 0%Z w) as (S1 & S2 & _).
  split; [exact S1 | exact (S2 (Forall_nil _))].
Qed.

(** X12: the constructor numbers the units row by row.  In the network
    built from any configuration, the unit at position [i] of layer [l]
    has id [l * neurons_per_layer + i] and layer field [l], starts with
    potential 0.0, spike count 0 and a bank of 100 elements, each live,
    with no cycles, a one-entry history and a resistance in
    [9000, 1100000]; ids lie in [0, total_neurons) and two different
    positions never share an id. *)
Theorem constructor_numbers_units (p : MaterialProperties) (w : W) :
  let c := fst (NeuromorphicChip_init_with p w) in
  let per := Z.of_nat (range_len (neurons_per_layer p)) in
  (forall (l i : nat) (row : list BayesianNeuron) (nrn : BayesianNeuron),
     nth_error (layers c) l = Some row -> nth_error row i = Some nrn ->
     neuron_id nrn = (Z.of_nat l * per + Z.of_nat i)%Z /\
     layer nrn = Z.of_nat l /\
     pristine_unit nrn /\
     (0 <= neuron_id nrn < total_neurons c)%Z) /\
  (forall (l1 i1 l2 i2 : nat) (row1 row2 : list BayesianNeuron)
          (n1 n2 : BayesianNeuron),
     nth_error (layers c) l1 = Some row1 -> nth_error row1 i1 = Some n1 ->
     nth_error (layers c) l2 = Some row2 -> nth_error row2 i2 = Some n2 ->
     neuron_id n1 = neuron_id n2 -> l1 = l2 /\ i1 = i2).
Proof.
  intros c per.
  pose proof (init_with_shaped p w) as [S1 S2]. fold c in S1, S2.
  assert (Hp : chip_props c = p)
    by (unfold c; rewrite init_with_layers; reflexivity).
  rewrite Hp in S1, S2.
  assert (Hnum : numbered (range_len (neurons_per_layer p)) (layers c)).
  { unfold c. rewrite init_with_layers. cbn [layers].
    apply build_layers_numbered; try reflexivity.
    intros l row i nrn Hr. destruct l; discriminate. }
  assert (Htot : total_neurons c
                 = (Z.of_nat (range_len (num_layers p)) * per)%Z).
  { unfold c. rewrite init_with_layers. cbn [total_neurons].
    destruct (build_layers_shape (range_len (num_layers p))
                (neurons_per_layer p) 0%Z [] 0%Z w) as (_ & _ & S3).
    rewrite S3. lia. }
  assert (Hpos : forall (l i : nat) (row : list BayesianNeuron)
                        (nrn : BayesianNeuron),
            nth_error (layers c) l = Some row -> nth_error row i = Some nrn ->
            (l < range_len (num_layers p))%nat /\
            (i < range_len (neurons_per_layer p))%nat).
  { intros l i row nrn Hr Hn. split.
    - rewrite <- S1. apply nth_error_Some. congruence.
    - rewrite Forall_forall in S2.
      rewrite <- (S2 row (nth_error_In _ _ Hr)).
      apply nth_error_Some. congruence. }
  split.
  - intros l i row nrn Hr Hn.
    destruct (Hnum l row i nrn Hr Hn) as (Hid & Hl & Hu).
    destruct (Hpos l i row nrn Hr Hn) as [Hlt Hit].
    split; [exact Hid |]. split; [exact Hl |]. split; [exact Hu |].
    rewrite Hid, Htot. unfold per. nia.
  - intros l1 i1 l2 i2 row1 row2 n1 n2 Hr1 Hn1 Hr2 Hn2 Heq.
    destruct (Hnum l1 row1 i1 n1 Hr1 Hn1) as (Hid1 & _).
    destruct (Hnum l2 row2 i2 n2 Hr2 Hn2) as (Hid2 & _).
    destruct (Hpos l1 i1 row1 n1 Hr1 Hn1) as [_ Hi1].
    destruct (Hpos l2 i2 row2 n2 Hr2 Hn2) as [_ Hi2].
    rewrite Hid1, Hid2 in Heq.
    assert (l1 = l2) by nia. subst l2. split; [reflexivity | nia].
Qed.

Lemma count_degraded_acc (syns : list HfO2Memristor) :
  forall d : Z,
    fold_left (fun d0 syn => if degraded syn then (d0 + 1)%Z else d0) syns d
    = (d + count_degraded syns)%Z.
Proof.
  unfold count_degraded.
  induction syns as [|s0 syns IH]; intro d; simpl.
  - lia.
  - rewrite IH. rewrite (IH (if degraded s0 then 1%Z else 0%Z)).
    destruct (degraded s0); lia.
Qed.

Lemma count_degraded_cons (s0 : HfO2Memristor) (syns : list HfO2Memristor) :
  count_degraded (s0 :: syns)
  = ((if degraded s0 then 1 else 0) + count_degraded syns)%Z.
Proof.
  unfold count_degraded at 1. simpl. rewrite count_degraded_acc.
  destruct (degraded s0); reflexivity.
Qed.

Lemma count_degraded_bounds (syns : list HfO2Memristor) :
  (0 <= count_degraded syns <= len syns)%Z.
Proof.
  induction syns as [|s0 syns IH].
  - unfold count_degraded, len. simpl. lia.
  - rewrite count_degraded_cons. unfold len in *. simpl length.
    destruct (degraded s0); lia.
Qed.

Lemma count_degraded_live (syns : list HfO2Memristor) :
  Forall (fun e => degraded e = false) syns -> count_degraded syns = 0%Z.
Proof.
  induction 1 as [|s0 syns H0 _ IH].
  - reflexivity.
  - rewrite count_degraded_cons, H0, IH. reflexivity.
Qed.

Lemma py_sum_cons (x : Q) (l : list Q) : py_sum (x :: l) == x + py_sum l.
Proof.
  unfold py_sum. simpl. rewrite fold_plus_shift. ring.
Qed.

Lemma inject_len_cons {A : Type} (x : A) (l : list A) :
  inject_Z (len (x :: l)) == 1 + inject_Z (len l).
Proof.
  unfold len. simpl length. rewrite Nat2Z.inj_succ, <- Z.add_1_l.
  rewrite inject_Z_plus. reflexivity.
Qed.

Lemma py_sum_bounds (a b : Q) (l : list Q) :
  Forall (fun x => a <= x /\ x <= b) l ->
  a * inject_Z (len l) <= py_sum l /\ py_sum l <= b * inject_Z (len l).
Proof.
  induction 1 as [|x l [Hx1 Hx2] _ [IH1 IH2]].
  - unfold py_sum, len. cbn [length fold_left Z.of_nat].
    change (inject_Z 0) with 0. split; lra.
  - rewrite py_sum_cons, inject_len_cons. split; lra.
Qed.

Lemma np_mean_bounds (a b : Q) (l : list Q) :
  l <> [] -> Forall (fun x => a <= x /\ x <= b) l ->
  a <= np_mean l /\ np_mean l <= b.
Proof.
  intros Hne Hall. destruct (py_sum_bounds a b l Hall) as [H1 H2].
  assert (Hpos : 0 < inject_Z (len l)).
  { unfold len. destruct l; [contradiction |].
    change 0 with (inject_Z 0). rewrite <- Zlt_Qlt. simpl length. lia. }
  unfold np_mean. split.
  - apply Qle_shift_div_l; assumption.
  - apply Qle_shift_div_r; assumption.
Qed.

(** What [get_stats] returns on a chip with at least one element. *)
Lemma get_stats_value (c : NeuromorphicChip) :
  all_synapses (layers c) <> [] ->
  let syns := all_synapses (layers c) in
  let rs := map resistance syns in
  get_stats c
  = (Returned
       {| stat_neurons := total_neurons c;
          stat_synapses := len rs;
          stat_mean_resistance := np_mean rs;
          stat_std_resistance := np_std rs;
          stat_variability_percent := np_std rs / np_mean rs * 100;
          stat_degraded_percent :=
            inject_Z (count_degraded syns) / inject_Z (len rs) * 100;
          stat_temperature_C := 300 + power_draw c * 0.1 - 273;
          stat_power_W := power_draw c |},
     snd (thermal_simulation c 300)).
Proof.
  intros Hne syns rs. unfold get_stats, int_truediv. fold syns. fold rs.
  destruct (len rs =? 0)%Z eqn:E; [| reflexivity].
  apply Z.eqb_eq in E. unfold rs in E.
  rewrite len_map_resistance in E. apply len_zero_nil in E. contradiction.
Qed.

(** X13: the statistics of any chip that has an element.  [get_stats]
    returns; the synapse count is the number of elements; the degraded
    percentage is [(degraded / elements) * 100] and lies in [0, 100];
    the reported temperature is [300 + power_draw * 0.1 - 273] and the
    reported power is [power_draw]. *)
Theorem statistics_ranges (c : NeuromorphicChip) :
  all_synapses (layers c) <> [] ->
  exists st : Stats,
    fst (get_stats c) = Returned st /\
    stat_neurons st = total_neurons c /\
    stat_synapses st = len (all_synapses (layers c)) /\
    stat_degraded_percent st
      = inject_Z (count_degraded (all_synapses (layers c)))
        / inject_Z (len (all_synapses (layers c))) * 100 /\
    0 <= stat_degraded_percent st /\ stat_degraded_percent st <= 100 /\
    stat_temperature_C st = 300 + power_draw c * 0.1 - 273 /\
    stat_power_W st = power_draw c.
Proof.
  intros Hne. rewrite (get_stats_value c Hne).
  eexists. split; [reflexivity |]. cbn [stat_neurons stat_synapses
    stat_degraded_percent stat_temperature_C stat_power_W].
  rewrite len_map_resistance.
  set (syns := all_synapses (layers c)) in *.
  assert (Hpos : 0 < inject_Z (len syns)).
  { unfold len. destruct syns; [contradiction |].
    change 0 with (inject_Z 0). rewrite <- Zlt_Qlt. simpl length. lia. }
  destruct (count_degraded_bounds syns) as [C0 C1].
  assert (Q0 : 0 <= inject_Z (count_degraded syns))
    by (change 0 with (inject_Z 0); rewrite <- Zle_Qle; exact C0).
  assert (Q1 : inject_Z (count_degraded syns) <= inject_Z (len syns))
    by (rewrite <- Zle_Qle; exact C1).
  assert (R0 : 0 <= inject_Z (count_degraded syns) / inject_Z (len syns))
    by (apply Qle_shift_div_l; [exact Hpos | lra]).
  assert (R1 : inject_Z (count_degraded syns) / inject_Z (len syns) <= 1)
    by (apply Qle_shift_div_r; [exact Hpos | lra]).
  do 3 (split; [reflexivity |]).
  split; [lra |]. split; [lra |]. split; reflexivity.
Qed.

(** X14: [get_stats] can be repeated: a second call right after the first
    returns the same record (or raises the same exception) and leaves the
    chip as the first call left it. *)
Theorem get_stats_repeats (c : NeuromorphicChip) :
  get_stats (snd (get_stats c)) = get_stats c.
Proof.
  remember (get_stats c) as r eqn:Hr. unfold get_stats in Hr.
  destruct (int_truediv
              (count_degraded (all_synapses (layers c)))
              (len (map resistance (all_synapses (layers c)))))
    as [ratio | e] eqn:E.
  - subst r. cbn [snd thermal_simulation]. unfold get_stats.
    cbn [layers power_draw total_neurons chip_props thermal_simulation].
    rewrite E. reflexivity.
  - subst r. cbn [snd]. unfold get_stats. rewrite E. reflexivity.
Qed.

Lemma init_with_pristine (p : MaterialProperties) (w : W) :
  Forall pristine (all_synapses (layers (fst (NeuromorphicChip_init_with p w)))).
Proof.
  rewrite init_with_layers. cbn [layers].
  pose proof (build_layers_Forall pristine_unit (range_len (num_layers p))
                (neurons_per_layer p)
                (fun i l w0 => proj2 (proj2 (BayesianNeuron_init_fields i l w0)))
                0%Z [] 0%Z w (Forall_nil _)) as Hu.
  unfold all_synapses. apply Forall_flat_map.
  eapply Forall_impl; [| exact Hu]. intros row Hrow.
  apply Forall_flat_map.
  eapply Forall_impl; [| exact Hrow]. intros nrn (_ & _ & _ & Hp). exact Hp.
Qed.

(** X15: the statistics of a network straight from the constructor.  For a
    configuration with at least one layer and one unit per layer,
    [get_stats] returns [num_layers * neurons_per_layer] neurons, 100
    times as many synapses, a degraded percentage of 0, a mean resistance
    in [9000, 1100000], 27 degrees Celsius and power 0; the default
    configuration gives 10000 neurons and 1000000 synapses. *)
Theorem fresh_network_statistics (p : MaterialProperties) (w : W) :
  (0 < num_layers p)%Z ->
  (0 < neurons_per_layer p)%Z ->
  let c := fst (NeuromorphicChip_init_with p w) in
  exists st : Stats,
    fst (get_stats c) = Returned st /\
    stat_neurons st = (num_layers p * neurons_per_layer p)%Z /\
    stat_synapses st = (num_layers p * neurons_per_layer p * 100)%Z /\
    stat_degraded_percent st == 0 /\
    9000 <= stat_mean_resistance st /\ stat_mean_resistance st <= 1100000 /\
    stat_temperature_C st == 27 /\
    stat_power_W st == 0 /\
    (p = MaterialProperties_default ->
       stat_neurons st = 10000%Z /\ stat_synapses st = 1000000%Z).
Proof.
  intros Hl Hn c.
  pose proof (chip_elements_count p w) as Hcount. fold c in Hcount.
  unfold range_len in Hcount. rewrite !Z2Nat.id in Hcount by lia.
  pose proof (init_with_pristine p w) as Hpr. fold c in Hpr.
  assert (Hne : all_synapses (layers c) <> []).
  { intro Hnil. rewrite Hnil in Hcount. unfold len in Hcount.
    simpl in Hcount. nia. }
  rewrite (get_stats_value c Hne).
  eexists. split; [reflexivity |].
  cbn [stat_neurons stat_synapses stat_degraded_percent stat_mean_resistance
       stat_temperature_C stat_power_W].
  rewrite len_map_resistance, Hcount.
  assert (Htot : total_neurons c = (num_layers p * neurons_per_layer p)%Z).
  { unfold c. rewrite init_with_layers. cbn [total_neurons].
    destruct (build_layers_shape (range_len (num_layers p))
                (neurons_per_layer p) 0%Z [] 0%Z w) as (_ & _ & S3).
    rewrite S3. unfold range_len. rewrite !Z2Nat.id by lia. lia. }
  assert (Hpw : power_draw c = 0.0)
    by (unfold c; rewrite init_with_layers; reflexivity).
  split; [exact Htot |]. split; [reflexivity |].
  split.
  { rewrite count_degraded_live.
    - unfold Qdiv. ring.
    - eapply Forall_impl; [| exact Hpr]. intros e (_ & Hd & _). exact Hd. }
  destruct (np_mean_bounds 9000 1100000
              (map resistance (all_synapses (layers c)))) as [M0 M1].
  { intro Hnil. apply Hne.
    destruct (all_synapses (layers c)); [reflexivity | discriminate]. }
  { apply Forall_map. eapply Forall_impl; [| exact Hpr].
    intros e (_ & _ & _ & _ & _ & H1 & H2). split; assumption. }
  split; [exact M0 |]. split; [exact M1 |].
  split; [rewrite Hpw; reflexivity |].
  split; [rewrite Hpw; reflexivity |].
  intro Hp. subst p. split; [rewrite Htot |]; reflexivity.
Qed.

Lemma process_leaves_bank (nrn : BayesianNeuron) (inputs : list Q) (w : W) :
  let nrn' := snd (fst (process nrn inputs w)) in
  synapses nrn' = synapses nrn /\ threshold nrn' = threshold nrn /\
  neuron_id nrn' = neuron_id nrn /\ layer nrn' = layer nrn.
Proof.
  unfold process, bind, ret.
  destruct (np_random_random w) as [u w'].
  destruct (u <? _); simpl; repeat split; reflexivity.
Qed.

Lemma list_set_length {A : Type} (l : list A) :
  forall (k : nat) (x : A), length (list_set l k x) = length l.
Proof.
  induction l as [|h t IH]; intros [|k] x; simpl; try reflexivity.
  rewrite IH. reflexivity.
Qed.

Lemma list_set_other {A : Type} (l : list A) :
  forall (k j : nat) (x : A),
    j <> k -> nth_error (list_set l k x) j = nth_error l j.
Proof.
  induction l as [|h t IH]; intros [|k] [|j] x Hne; simpl;
    try reflexivity; try contradiction.
  apply IH. lia.
Qed.

Lemma list_set_same {A : Type} (l : list A) :
  forall (k : nat) (x : A),
    (k < length l)%nat -> nth_error (list_set l k x) k = Some x.
Proof.
  induction l as [|h t IH]; intros [|k] x Hlt; simpl in *;
    try lia; try reflexivity.
  apply IH. lia.
Qed.

Lemma store_shape (ls : list (list BayesianNeuron)) (kl kn : nat)
    (x : BayesianNeuron) :
  map (@length BayesianNeuron) (store ls kl kn x)
  = map (@length BayesianNeuron) ls.
Proof.
  unfold store. destruct (nth_error ls kl) as [row|] eqn:Er; [| reflexivity].
  revert kl Er. induction ls as [|h t IH]; intros [|kl] Er; simpl in *;
    try discriminate.
  - injection Er as ->. rewrite list_set_length. reflexivity.
  - rewrite (IH kl Er). reflexivity.
Qed.

Lemma store_other (ls : list (list BayesianNeuron)) (kl kn : nat)
    (x : BayesianNeuron) (l i : nat) :
  (l, i) <> (kl, kn) ->
  unit_at (store ls kl kn x) l i = unit_at ls l i.
Proof.
  intro Hne. unfold store, unit_at.
  destruct (nth_error ls kl) as [row|] eqn:Er; [| reflexivity].
  destruct (Nat.eq_dec l kl) as [-> | Hl].
  - rewrite list_set_same by (apply nth_error_Some; congruence).
    rewrite Er. apply list_set_other. congruence.
  - rewrite list_set_other by exact Hl. reflexivity.
Qed.

(** The possible courses of one [process_random_spike]. *)
Lemma process_random_spike_cases (c : NeuromorphicChip) (w : W) :
  let r := fst (process_random_spike c w) in
  (((num_layers (chip_props c) <= 0)%Z \/
    (neurons_per_layer (chip_props c) <= 0)%Z) /\
   r = (Raised ValueError, c)) \/
  ((0 < num_layers (chip_props c))%Z /\
   (0 < neurons_per_layer (chip_props c))%Z /\
   ((r = (Raised IndexError, c) /\
     exists w1 w2,
       locate (layers c)
         (fst (np_random_randint 0 (num_layers (chip_props c)) w1))
         (fst (np_random_randint 0 (neurons_per_layer (chip_props c)) w2))
       = None) \/
    exists (lat pw : Q) (kl kn : nat) (row : list BayesianNeuron)
           (nrn nrn' : BayesianNeuron),
      nth_error (layers c) kl = Some row /\ nth_error row kn = Some nrn /\
      synapses nrn' = synapses nrn /\ threshold nrn' = threshold nrn /\
      neuron_id nrn' = neuron_id nrn /\ layer nrn' = layer nrn /\
      (pw = power_draw c \/ pw = power_draw c + energy_quantum) /\
      r = (Returned lat,
           {| chip_props := chip_props c;
              layers := store (layers c) kl kn nrn';
              total_neurons := total_neurons c;
              temperature := temperature c;
              power_draw := pw |}))).
Proof.
  unfold process_random_spike, randint_from_zero, bind, ret.
  destruct (num_layers (chip_props c) <=? 0)%Z eqn:El.
  { left. apply Z.leb_le in El. split; [left; exact El | reflexivity]. }
  apply Z.leb_gt in El.
  destruct (np_random_randint 0 (num_layers (chip_props c)) w) as [l w1] eqn:R1.
  destruct (neurons_per_layer (chip_props c) <=? 0)%Z eqn:En.
  { left. apply Z.leb_le in En. split; [right; exact En | reflexivity]. }
  apply Z.leb_gt in En.
  destruct (np_random_randint 0 (neurons_per_layer (chip_props c)) w1)
    as [n w2] eqn:R2.
  right. split; [exact El |]. split; [exact En |].
  destruct (np_random_vector 100 w2) as [ds w3].
  destruct (time_time w3) as [start w4].
  destruct (locate (layers c) l n) as [[[kl kn] nrn]|] eqn:Eloc.
  - right.
    destruct (locate_found _ _ _ _ _ _ Eloc) as (row & Hr & Hn).
    pose proof (process_leaves_bank nrn (map (fun d => d * 0.5) ds) w4) as Hb.
    destruct (process nrn (map (fun d => d * 0.5) ds) w4) as [[spike nrn'] w5].
    cbn [fst snd] in Hb. destruct Hb as (Hs & Ht & Hi & Hl).
    destruct (time_time w5) as [stop w6].
    destruct (spike >? 0); cbn [fst].
    + eexists _, _, kl, kn, row, nrn, nrn'.
      do 6 (split; [eassumption |]). split; [right; reflexivity |].
      reflexivity.
    + eexists _, _, kl, kn, row, nrn, nrn'.
      do 6 (split; [eassumption |]). split; [left; reflexivity |].
      reflexivity.
  - left. cbn [fst]. split; [reflexivity |].
    exists w, w1. rewrite R1, R2. exact Eloc.
Qed.

(** X16: what one [process_random_spike] can and cannot do.  It never
    changes the configuration, the unit count, the temperature, the shape
    of the layers or any element; at most one unit differs afterwards.  It
    raises ValueError whenever [num_layers] or [neurons_per_layer] is not
    positive, and for counts that fit numpy's int64 bound (at most 2^63)
    in no other case; whenever it raises the chip is left as it was. *)
Theorem process_random_spike_effects (c : NeuromorphicChip) (w : W) :
  let r := fst (process_random_spike c w) in
  let c' := snd r in
  chip_props c' = chip_props c /\
  total_neurons c' = total_neurons c /\
  temperature c' = temperature c /\
  map (@length BayesianNeuron) (layers c')
    = map (@length BayesianNeuron) (layers c) /\
  all_synapses (layers c') = all_synapses (layers c) /\
  (exists kl kn : nat, forall l i : nat,
     (l, i) <> (kl, kn) ->
     unit_at (layers c') l i = unit_at (layers c) l i) /\
  (forall e : exn, fst r = Raised e -> c' = c) /\
  ((num_layers (chip_props c) <= 0)%Z \/
   (neurons_per_layer (chip_props c) <= 0)%Z ->
   fst r = Raised ValueError) /\
  ((num_layers (chip_props c) <= 9223372036854775808)%Z ->
   (neurons_per_layer (chip_props c) <= 9223372036854775808)%Z ->
   fst r = Raised ValueError ->
   (num_layers (chip_props c) <= 0)%Z \/
   (neurons_per_layer (chip_props c) <= 0)%Z).
Proof.
  intros r c'. subst c'.
  destruct (process_random_spike_cases c w)
    as [[Hbad E] | (Hl & Hn & [[E _] | Hret])]; fold r in E || idtac.
  - rewrite E. cbn [fst snd]. do 5 (split; [reflexivity |]).
    split; [exists O, O; reflexivity |].
    split; [reflexivity |]. split; [reflexivity | intros _ _ _; exact Hbad].
  - rewrite E. cbn [fst snd]. do 5 (split; [reflexivity |]).
    split; [exists O, O; reflexivity |].
    split; [reflexivity |]. split; [lia | intros _ _ H; discriminate H].
  - destruct Hret as (lat & pw & kl & kn & row & nrn & nrn' &
                      Hr & Hk & Hs & _ & _ & _ & _ & E).
    fold r in E. rewrite E. cbn [fst snd chip_props total_neurons
                                 temperature layers].
    do 3 (split; [reflexivity |]).
    split; [apply store_shape |].
    split; [apply (store_same_bank _ _ _ row nrn); assumption |].
    split; [exists kl, kn; intros l i Hne; apply store_other; exact Hne |].
    split; [discriminate |]. split; [lia | intros _ _ H; discriminate H].
Qed.

Lemma py_index_in_bounds (n : nat) (i : Z) :
  (0 <= i < Z.of_nat n)%Z -> py_index n i = Some (Z.to_nat i).
Proof.
  intros [H0 H1]. unfold py_index.
  destruct (0 <=? i)%Z eqn:E0; [| apply Z.leb_gt in E0; lia].
  destruct (i <? Z.of_nat n)%Z eqn:E1; [reflexivity |].
  apply Z.ltb_ge in E1. lia.
Qed.

Lemma locate_in_bounds (c : NeuromorphicChip) (l n : Z) :
  shaped c ->
  (0 <= l < num_layers (chip_props c))%Z ->
  (0 <= n < neurons_per_layer (chip_props c))%Z ->
  locate (layers c) l n <> None.
Proof.
  intros [S1 S2] Hl Hn. unfold locate, range_len in *.
  rewrite py_index_in_bounds by lia.
  destruct (nth_error (layers c) (Z.to_nat l)) as [row|] eqn:Er.
  - rewrite Forall_forall in S2.
    pose proof (S2 row (nth_error_In _ _ Er)) as Hrow.
    rewrite py_index_in_bounds by lia.
    destruct (nth_error row (Z.to_nat n)) as [nrn|] eqn:En; [discriminate |].
    apply nth_error_None in En. lia.
  - apply nth_error_None in Er. lia.
Qed.

Lemma shaped_transfer (c c' : NeuromorphicChip) :
  chip_props c' = chip_props c ->
  map (@length BayesianNeuron) (layers c')
    = map (@length BayesianNeuron) (layers c) ->
  shaped c -> shaped c'.
Proof.
  intros Hp Hm [S1 S2]. unfold shaped. rewrite Hp. split.
  - rewrite <- S1, <- (length_map (@length BayesianNeuron) (layers c')), Hm.
    apply length_map.
  - rewrite Forall_forall in *. intros row Hin.
    apply (in_map (@length BayesianNeuron)) in Hin. rewrite Hm in Hin.
    apply in_map_iff in Hin. destruct Hin as (row0 & Hlen & Hin0).
    rewrite <- Hlen. apply S2. exact Hin0.
Qed.

Lemma process_random_spike_returns (c : NeuromorphicChip) (w : W) :
  shaped c ->
  (0 < num_layers (chip_props c))%Z ->
  (0 < neurons_per_layer (chip_props c))%Z ->
  randint_in_bounds ->
  exists lat : Q, fst (fst (process_random_spike c w)) = Returned lat.
Proof.
  intros Hsh Hl Hn Hb.
  destruct (process_random_spike_cases c w)
    as [[Hbad _] | (_ & _ & [[_ (w1 & w2 & Hnone)] | Hret])].
  - lia.
  - exfalso. revert Hnone. apply locate_in_bounds; [exact Hsh | |];
      apply Hb; assumption.
  - destruct Hret as (lat & pw & kl & kn & row & nrn & nrn' &
                      _ & _ & _ & _ & _ & _ & _ & E).
    exists lat. rewrite E. reflexivity.
Qed.

(** A run of calls on a well-shaped chip, by induction on its length. *)
Lemma drive_completes_aux (n : nat) :
  forall (c : NeuromorphicChip) (w : W),
    shaped c ->
    (0 < num_layers (chip_props c))%Z ->
    (0 < neurons_per_layer (chip_props c))%Z ->
    randint_in_bounds ->
    let r := fst (drive n c w) in
    fst r = Returned tt /\
    shaped (snd r) /\
    chip_props (snd r) = chip_props c /\
    total_neurons (snd r) = total_neurons c /\
    temperature (snd r) = temperature c /\
    all_synapses (layers (snd r)) = all_synapses (layers c).
Proof.
  induction n as [|n IH]; intros c w Hsh Hl Hn Hb.
  - simpl. repeat split; try reflexivity; apply Hsh.
  - cbn [drive]. unfold bind.
    destruct (process_random_spike_returns c w Hsh Hl Hn Hb) as (lat & Hlat).
    pose proof (process_random_spike_cases c w) as Hcases.
    destruct (process_random_spike c w) as [[o c1] w1].
    cbn [fst snd] in *. subst o.
    assert (Hfacts : chip_props c1 = chip_props c /\
                     total_neurons c1 = total_neurons c /\
                     temperature c1 = temperature c /\
                     map (@length BayesianNeuron) (layers c1)
                       = map (@length BayesianNeuron) (layers c) /\
                     all_synapses (layers c1) = all_synapses (layers c)).
    { destruct Hcases as [[_ E] | (_ & _ & [[E _] | Hret])];
        try discriminate.
      destruct Hret as (lat0 & pw & kl & kn & row & nrn & nrn' &
                        Hr & Hk & Hs & _ & _ & _ & _ & E).
      injection E as _ ->. cbn [chip_props total_neurons temperature layers].
      repeat split; [apply store_shape |].
      apply (store_same_bank _ _ _ row nrn); assumption. }
    destruct Hfacts as (F1 & F2 & F3 & F4 & F5).
    assert (Hsh1 : shaped c1) by (apply (shaped_transfer c); assumption).
    destruct (IH c1 w1 Hsh1) as (R1 & R2 & R3 & R4 & R5 & R6);
      [rewrite F1; exact Hl | rewrite F1; exact Hn | exact Hb |].
    cbv zeta. split; [exact R1 |]. split; [exact R2 |].
    split; [congruence |]. split; [congruence |].
    split; [congruence | congruence].
Qed.

(** X17: a run of [process_random_spike] calls.  On a chip whose layers
    have the shape of a configuration with at least one layer and one unit
    per layer, and with a generator whose [randint] stays inside its
    bounds, [n] calls in a row raise nothing; afterwards the shape, the
    configuration, the unit count, the temperature and every element are
    as before.  With a configuration whose [num_layers] or
    [neurons_per_layer] is not positive, a run of one or more calls ends
    at its first call with ValueError and the chip untouched. *)
Theorem drive_completes (n : nat) (c : NeuromorphicChip) (w : W) :
  (shaped c ->
   (0 < num_layers (chip_props c))%Z ->
   (0 < neurons_per_layer (chip_props c))%Z ->
   randint_in_bounds ->
   let r := fst (drive n c w) in
   fst r = Returned tt /\
   shaped (snd r) /\
   chip_props (snd r) = chip_props c /\
   total_neurons (snd r) = total_neurons c /\
   temperature (snd r) = temperature c /\
   all_synapses (layers (snd r)) = all_synapses (layers c)) /\
  ((num_layers (chip_props c) <= 0)%Z \/
   (neurons_per_layer (chip_props c) <= 0)%Z ->
   fst (drive (S n) c w) = (Raised ValueError, c)).
Proof.
  split; [apply drive_completes_aux |].
  intro Hbad. cbn [drive]. unfold bind.
  destruct (process_random_spike_cases c w) as [[_ E] | (Hl & Hn & _)];
    [| lia].
  destruct (process_random_spike c w) as [[o c1] w1].
  cbn [fst snd] in E |- *. injection E as -> ->. reflexivity.
Qed.

(** X18: the harness.  With a generator whose [randint] stays inside its
    bounds, building the default chip, running 100 random spikes and
    taking the statistics raises nothing and reports 10000 neurons,
    1000000 synapses, no degraded element, a mean resistance in
    [9000, 1100000], a power between 0 and 100 quanta (1e-9) and the
    temperature [300 + power * 0.1 - 273]. *)
Theorem harness_statistics (w : W) :
  randint_in_bounds ->
  exists st : Stats,
    fst (fst (main_run w)) = Returned st /\
    stat_neurons st = 10000%Z /\
    stat_synapses st = 1000000%Z /\
    stat_degraded_percent st == 0 /\
    9000 <= stat_mean_resistance st /\ stat_mean_resistance st <= 1100000 /\
    0 <= stat_power_W st /\ stat_power_W st <= 1e-9 /\
    stat_temperature_C st = 300 + stat_power_W st * 0.1 - 273.
Proof.
  intro Hb. unfold main_run, bind, ret.
  pose proof (init_with_shaped MaterialProperties_default w) as Hsh.
  pose proof (init_with_pristine MaterialProperties_default w) as Hpr.
  pose proof (default_chip_elements w) as Hcount.
  pose proof (init_with_layers MaterialProperties_default w) as Hrec.
  cbv zeta in Hrec. unfold NeuromorphicChip_init in *.
  destruct (NeuromorphicChip_init_with MaterialProperties_default w)
    as [c0 w0]. cbn [fst] in *.
  assert (Hp0 : chip_props c0 = MaterialProperties_default)
    by (rewrite Hrec; reflexivity).
  assert (Hpw0 : power_draw c0 = 0.0) by (rewrite Hrec; reflexivity).
  assert (Htot0 : total_neurons c0 = 10000%Z).
  { rewrite Hrec. cbn [total_neurons].
    destruct (build_layers_shape
                (range_len (num_layers MaterialProperties_default))
                (neurons_per_layer MaterialProperties_default)
                0%Z [] 0%Z w) as (_ & _ & S3).
    rewrite S3. unfold range_len.
    cbn [num_layers neurons_per_layer MaterialProperties_default].
    rewrite !Z2Nat.id by lia. reflexivity. }
  destruct (drive_completes_aux 100 c0 w0 Hsh) as (R1 & _ & _ & R4 & _ & R6);
    [rewrite Hp0; reflexivity | rewrite Hp0; reflexivity | exact Hb |].
  destruct (drive_power 100 c0 w0) as (Hle & k & Hk & Ek).
  destruct (drive 100 c0 w0) as [[o c1] w1]. cbn [fst snd] in *.
  subst o.
  assert (Hne : all_synapses (layers c1) <> []).
  { intro Hnil. rewrite R6 in Hnil. rewrite Hnil in Hcount.
    unfold len in Hcount. simpl in Hcount. discriminate. }
  rewrite (get_stats_value c1 Hne).
  eexists. split; [reflexivity |].
  cbn [stat_neurons stat_synapses stat_degraded_percent stat_mean_resistance
       stat_temperature_C stat_power_W].
  rewrite len_map_resistance, R6, Hcount.
  split; [congruence |]. split; [reflexivity |].
  split.
  { rewrite count_degraded_live.
    - unfold Qdiv. ring.
    - eapply Forall_impl; [| exact Hpr]. intros e (_ & Hd & _). exact Hd. }
  destruct (np_mean_bounds 9000 1100000
              (map resistance (all_synapses (layers c0)))) as [M0 M1].
  { intro Hnil. apply map_eq_nil in Hnil. rewrite Hnil in Hcount.
    unfold len in Hcount. simpl in Hcount. discriminate. }
  { apply Forall_map. eapply Forall_impl; [| exact Hpr].
    intros e (_ & _ & _ & _ & _ & H1 & H2). split; assumption. }
  split; [exact M0 |]. split; [exact M1 |].
  rewrite Hpw0 in Hle, Ek.
  assert (Hkq : inject_Z (Z.of_nat k) <= 100).
  { change 100 with (inject_Z 100). rewrite <- Zle_Qle. lia. }
  assert (Hk0 : 0 <= inject_Z (Z.of_nat k)).
  { change 0 with (inject_Z 0). rewrite <- Zle_Qle. lia. }
  set (x := inject_Z (Z.of_nat k)) in *. clearbody x.
  assert (E9 : 1e-9 == 1 # 1000000000) by reflexivity.
  assert (E11 : 1e-11 == 1 # 100000000000) by reflexivity.
  split; [lra |]. split; [rewrite Ek, E9, E11; lra |]. reflexivity.
Qed.

(** C7, as the code has it: no configuration is validated anywhere.  The
    configuration record stores whatever field values it is given; the
    element and the network constructors take no configuration at all -
    each builds its own default [MaterialProperties()] - so for every
    target and every state of the generator the element carries the
    default configuration, and the network carries it too, with 8 layers
    of 1250 units, 10000 units in all, every element on the default
    configuration, temperature 300 and power 0. *)
Theorem configuration_is_never_validated :
  (forall (g : Q) (r : Q * Q) (t v : Q) (nl npl : Z),
     MaterialProperties_init (Some g) (Some r) (Some t) (Some v)
       (Some nl) (Some npl)
     = {| grafeno_thermal_conductivity := g;
          hfo2_resistance_range := r;
          hfo2_target_resistance := t;
          hfo2_variability := v;
          num_layers := nl;
          neurons_per_layer := npl |}) /\
  MaterialProperties_init None None None None None None
    = MaterialProperties_default /\
  (forall (target : option Q) (w : W),
     props (fst (HfO2Memristor_init target w)) = MaterialProperties_default) /\
  (forall w : W,
     let c := fst (NeuromorphicChip_init w) in
     chip_props c = MaterialProperties_default /\
     total_neurons c = 10000%Z /\
     length (layers c) = 8%nat /\
     Forall (fun row => length row = 1250%nat) (layers c) /\
     Forall (fun e => props e = MaterialProperties_default)
       (all_synapses (layers c)) /\
     temperature c = 300 /\
     power_draw c = 0.0).
Proof.
  split; [reflexivity |]. split; [reflexivity |].
  split.
  { intros target w. unfold HfO2Memristor_init. rewrite init_fields.
    reflexivity. }
  intros w c. unfold c, NeuromorphicChip_init.
  pose proof (init_with_shaped MaterialProperties_default w) as [S1 S2].
  pose proof (init_with_pristine MaterialProperties_default w) as Hpr.
  rewrite init_with_layers in *. cbn [chip_props layers total_neurons
    temperature power_draw] in *.
  destruct (build_layers_shape
              (range_len (num_layers MaterialProperties_default))
              (neurons_per_layer MaterialProperties_default)
              0%Z [] 0%Z w) as (_ & _ & S3).
  split; [reflexivity |].
  split; [rewrite S3; reflexivity |].
  split; [exact S1 |]. split; [exact S2 |].
  split; [| split; reflexivity].
  eapply Forall_impl; [| exact Hpr]. intros e (Hp & _). exact Hp.
Qed.

End NetworkFacts.

(** * The model on concrete inputs *)

(** Five SET pulses at 1.5 V on a 100 kOhm element: 100000 * 0.97^5. *)
Example five_set_pulses :
  resistance (fst (pulses fresh_element [1.5; 1.5; 1.5; 1.5; 1.5] quiet))
  == 85873.40257.
Proof. vm_compute. reflexivity. Qed.

(** Past 10000 cycles a draw below 0.0001 degrades the element; the pulse
    that degrades it still updates resistance and history. *)
Example wear_out :
  let worn := {| props := MaterialProperties_default;
                 resistance := 100e3;
                 filament := 1.0 / 100e3;
                 cycles := 10000;
                 degraded := false;
                 history := [100e3] |} in
  let after := pulse worn (-1.5) {| draws := [0.00005]; picks := []; clock := 0 |} in
  degraded (fst after) = true /\
  resistance (fst after) == 103000 /\
  draws (snd after) = [].
Proof. vm_compute. repeat split. Qed.

Lemma pulse_updates_and_clips_witness :
  degraded fresh_element = false /\
  cycles (fst (pulse fresh_element 1.5 quiet)) = 1%Z /\
  resistance (fst (pulse fresh_element 1.5 quiet))
    = np_clip (100e3 * 0.97) 10e3 1e6 /\
  10e3 <= resistance (fst (pulse fresh_element 1.5 quiet)) /\
  resistance (fst (pulse fresh_element 1.5 quiet)) <= 1e6.
Proof.
  destruct (pulse_updates_and_clips fresh_element 1.5 quiet eq_refl)
    as (Hc & Hset & _ & _ & _ & Hrange).
  split; [reflexivity |].
  split; [exact Hc |].
  split; [apply Hset; reflexivity |].
  apply Hrange. reflexivity.
Defined.

Lemma degraded_is_absorbing_witness :
  degraded dead_element = true /\
  pulse dead_element 1.5 quiet = (dead_element, quiet) /\
  read dead_element 0.2 = PyInt 0.
Proof.
  destruct (degraded_is_absorbing dead_element 1.5 quiet eq_refl)
    as (Hp & _ & Hall).
  split; [reflexivity |].
  split; [exact Hp |].
  destruct (Hall [] quiet 0.2) as (_ & _ & Hr). exact Hr.
Defined.

Lemma history_tracks_cycles_witness :
  history_invariant fresh_element /\
  history_invariant (fst (pulse fresh_element 1.5 quiet)) /\
  history (fst (pulse fresh_element 1.5 quiet))
    = [100e3; resistance (fst (pulse fresh_element 1.5 quiet))].
Proof.
  destruct (history_tracks_cycles (NP := Coarse_NumPy) (W := Script))
    as (_ & Hkeep & Hlive & _ & _).
  assert (H0 : history_invariant fresh_element) by reflexivity.
  split; [exact H0 |].
  split; [apply Hkeep; exact H0 |].
  destruct (Hlive fresh_element 1.5 quiet eq_refl) as (_ & Hh). exact Hh.
Defined.

Lemma zero_target_is_default_witness :
  0 == 0 /\
  HfO2Memristor_init (Some 0) quiet = HfO2Memristor_init None quiet.
Proof.
  assert (Hz : 0 == 0) by reflexivity.
  split; [exact Hz |].
  destruct (zero_target_is_default (NP := Coarse_NumPy) 0 quiet Hz)
    as (_ & _ & He).
  exact He.
Defined.

Lemma process_divides_by_raw_resistance_witness :
  nth_error (synapses small_neuron) 1 = Some dead_element /\
  total_current (synapses small_neuron) [0.5; 0.25]
    = 0.0 + 0.5 / 100e3 + 0.25 / resistance dead_element /\
  read dead_element 0.25 = PyInt 0.
Proof.
  destruct (process_divides_by_raw_resistance (NP := Coarse_NumPy)
              small_neuron [0.5; 0.25] 1 dead_element 0.25 quiet
              eq_refl eq_refl eq_refl)
    as (_ & Hcur & _ & _ & _ & _ & _ & Hread & _).
  split; [reflexivity |].
  split; [exact Hcur | apply Hread].
Defined.

(** C3 as stated fails on the code: in binary64 the smallest positive
    input entry, divided by a resistance of 100 kOhm, gives exactly zero,
    so a nonzero entry on a degraded element of nonzero resistance can
    contribute a zero term. *)
Lemma subnormal_input_contributes_zero :
  PrimFloat.eqb 0x1p-1074%float 0%float = false /\
  PrimFloat.eqb 100000%float 0%float = false /\
  current_term_binary64 0x1p-1074%float 100000%float = 0%float.
Proof. repeat split. Qed.

Lemma process_fires_or_integrates_witness :
  let w := {| draws := [0.01]; picks := []; clock := 0 |} in
  potential (snd (fst (process small_neuron [0.5; 0.25] w))) = 0.0 /\
  spike_count (snd (fst (process small_neuron [0.5; 0.25] w))) = 1%Z.
Proof.
  intro w.
  destruct (process_fires_or_integrates (NP := Coarse_NumPy)
              small_neuron [0.5; 0.25] w) as (_ & Hfire & _).
  destruct Hfire as (_ & Hs & Hp & _); [reflexivity |].
  split; [exact Hp | exact Hs].
Defined.

Lemma process_leaves_elements_witness :
  synapses (snd (fst (process small_neuron [0.5; 0.25] quiet)))
    = [fresh_element; dead_element] /\
  exists syn', nth_error
      (synapses (snd (fst (process small_neuron [0.5; 0.25] quiet)))) 1
      = Some syn' /\ degraded syn' = true.
Proof.
  destruct (process_leaves_elements (NP := Coarse_NumPy)
              small_neuron [0.5; 0.25] quiet) as (Hs & Hnth & _).
  split; [exact Hs |].
  destruct (Hnth 1%nat dead_element eq_refl) as (syn' & Hn & _ & _ & _ & Hd & _).
  exists syn'. split; [exact Hn | exact Hd].
Defined.

Lemma get_stats_only_sets_temperature_witness :
  exists st : Stats,
    fst (get_stats (NP := Coarse_NumPy) small_chip) = Returned st /\
    temperature (snd (get_stats (NP := Coarse_NumPy) small_chip))
      = 300 + power_draw small_chip * 0.1 /\
    layers (snd (get_stats (NP := Coarse_NumPy) small_chip))
      = layers small_chip.
Proof.
  destruct (get_stats_only_sets_temperature (NP := Coarse_NumPy) small_chip)
    as (Hl & _ & _ & _ & Hret & Hsome & _ & _).
  destruct Hsome as (st & Hst); [discriminate |].
  exists st. split; [exact Hst |].
  destruct (Hret st Hst) as (_ & Ht & _).
  split; [exact Ht | exact Hl].
Defined.

(** C7 as stated fails on the code: the configuration record is built
    without complaint from an inverted range and from zero units per
    layer. *)
Lemma malformed_configuration_is_accepted :
  MaterialProperties_init None (Some (1e6, 10e3)) None None None None
    = inverted_range_config /\
  malformed inverted_range_config = true /\
  MaterialProperties_init None None None None None (Some 0%Z)
    = zero_units_config /\
  malformed zero_units_config = true.
Proof. repeat split. Qed.

(** * The further properties on concrete inputs *)

Lemma bounded_world_in_bounds : @randint_in_bounds Script Bounded_World.
Proof.
  intros high w Hh. cbn [np_random_randint Bounded_World].
  unfold bounded_pick. destruct (next_pick w) as [k w']. cbn [fst].
  rewrite Z.sub_0_r, Z.add_0_l. apply Z.mod_pos_bound. exact Hh.
Qed.

Lemma construction_window_witness :
  0 < effective_target MaterialProperties_default (Some 50e3) /\
  9000 <= resistance (fst (HfO2Memristor_init (NP := Coarse_NumPy)
                             (Some 50e3) quiet)) /\
  resistance (fst (HfO2Memristor_init (NP := Coarse_NumPy) (Some 50e3) quiet))
    <= 1100000.
Proof.
  assert (Hpos : 0 < effective_target MaterialProperties_default (Some 50e3))
    by reflexivity.
  destruct (construction_window (NP := Coarse_NumPy) (Some 50e3) quiet Hpos)
    as (Hlo & Hhi & _).
  split; [exact Hpos |]. split; [exact Hlo | exact Hhi].
Defined.

Lemma conductance_follows_resistance_witness :
  conductance_consistent fresh_element /\
  conductance_consistent (fst (pulses fresh_element [1.5; -1.5; 0.3] quiet)).
Proof.
  destruct (conductance_follows_resistance (NP := Coarse_NumPy) (W := Script))
    as (_ & _ & Htrain).
  assert (H0 : conductance_consistent fresh_element) by reflexivity.
  split; [exact H0 | apply Htrain; exact H0].
Defined.

Lemma degradation_threshold_witness :
  degraded fresh_element = false /\
  degraded (fst (pulse fresh_element 1.5 quiet)) = false /\
  snd (pulse fresh_element 1.5 quiet) = quiet /\
  (degraded (fst (pulse worn_element 1.5
                    {| draws := [0.00005]; picks := []; clock := 0 |})) = true).
Proof.
  destruct (degradation_threshold fresh_element 1.5 quiet eq_refl)
    as [Hbelow _].
  destruct Hbelow as [H1 H2]; [reflexivity |].
  destruct (degradation_threshold worn_element 1.5
              {| draws := [0.00005]; picks := []; clock := 0 |} eq_refl)
    as [_ Habove].
  destruct Habove as [_ Hiff]; [discriminate |].
  split; [reflexivity |]. split; [exact H1 |]. split; [exact H2 |].
  apply Hiff. reflexivity.
Defined.

Lemma pulse_direction_witness :
  in_range fresh_element /\
  resistance (fst (pulse fresh_element 1.5 quiet)) <= 100e3 /\
  100e3 <= resistance (fst (pulse fresh_element (-1.5) quiet)) /\
  resistance (fst (pulse fresh_element 0.5 quiet)) = 100e3.
Proof.
  assert (Hin : in_range fresh_element) by (split; discriminate).
  assert (Hpos : 0 <= resistance fresh_element) by discriminate.
  destruct (pulse_direction fresh_element 1.5 quiet eq_refl Hin Hpos)
    as (Hset & _ & _).
  destruct (pulse_direction fresh_element (-1.5) quiet eq_refl Hin Hpos)
    as (_ & Hreset & _).
  destruct (pulse_direction fresh_element 0.5 quiet eq_refl Hin Hpos)
    as (_ & _ & Hnone).
  split; [exact Hin |].
  split; [apply Hset; reflexivity |].
  split; [apply Hreset; reflexivity |].
  apply Hnone. split; discriminate.
Defined.

Lemma range_ends_are_fixed_witness :
  resistance floor_element = 10e3 /\
  resistance (fst (pulse floor_element 1.5 quiet)) = 10e3.
Proof.
  assert (Hpos : 0 < fst (hfo2_resistance_range (props floor_element)))
    by reflexivity.
  assert (Hord : fst (hfo2_resistance_range (props floor_element))
                 <= snd (hfo2_resistance_range (props floor_element)))
    by discriminate.
  destruct (range_ends_are_fixed floor_element 1.5 quiet eq_refl Hpos Hord)
    as [Hset _].
  split; [reflexivity |]. apply Hset; reflexivity.
Defined.

Lemma set_train_is_geometric_witness :
  resistance (fst (pulses fresh_element (train 1.5 5) quiet))
    = 100e3 * 0.97 * 0.97 * 0.97 * 0.97 * 0.97 /\
  cycles (fst (pulses fresh_element (train 1.5 5) quiet)) = 5%Z.
Proof.
  assert (Hin : in_range fresh_element) by (split; discriminate).
  assert (Hmin : 0 <= fst (hfo2_resistance_range (props fresh_element)))
    by discriminate.
  assert (Hfloor : fst (hfo2_resistance_range (props fresh_element))
                   <= Nat.iter 5 (fun r => r * 0.97) (resistance fresh_element))
    by (vm_compute; discriminate).
  assert (Hcyc : (cycles fresh_element + Z.of_nat 5 <= 10000)%Z)
    by (vm_compute; discriminate).
  destruct (set_train_is_geometric 5 fresh_element 1.5 quiet eq_refl
              eq_refl Hin Hmin Hcyc Hfloor) as (Hr & Hc & _).
  split; [exact Hr | exact Hc].
Defined.

Lemma pulse_train_bookkeeping_witness :
  degraded dead_element = true /\
  degraded (fst (pulses dead_element [1.5; -1.5] quiet)) = true /\
  Z.le (cycles fresh_element)
       (cycles (fst (pulses fresh_element [1.5; -1.5] quiet))).
Proof.
  destruct (pulse_train_bookkeeping [1.5; -1.5] dead_element quiet)
    as (_ & _ & _ & Hd).
  destruct (pulse_train_bookkeeping [1.5; -1.5] fresh_element quiet)
    as ((Hc & _) & _).
  split; [reflexivity |]. split; [apply Hd; reflexivity | exact Hc].
Defined.

Lemma read_current_bounds_witness :
  read fresh_element 0.2 = PyFloat (0.2 / 100e3) /\
  0.2 / 1e6 <= 0.2 / 100e3 /\ 0.2 / 100e3 <= 0.2 / 10e3.
Proof.
  assert (Hin : in_range fresh_element) by (split; discriminate).
  assert (Hpos : 0 < fst (hfo2_resistance_range (props fresh_element)))
    by reflexivity.
  assert (Hv : 0 <= 0.2) by discriminate.
  destruct (read_current_bounds fresh_element 0.2 eq_refl Hin Hpos Hv)
    as (Hread & _ & Hlo & Hhi).
  split; [exact Hread |]. split; [exact Hlo | exact Hhi].
Defined.

Lemma inverted_range_pins_resistance_witness :
  snd (hfo2_resistance_range (props inverted_element))
    < fst (hfo2_resistance_range (props inverted_element)) /\
  resistance (fst (pulse inverted_element (-1.5) quiet)) = 10e3.
Proof.
  assert (Hinv : snd (hfo2_resistance_range (props inverted_element))
                 < fst (hfo2_resistance_range (props inverted_element)))
    by reflexivity.
  split; [exact Hinv |].
  exact (inverted_range_pins_resistance inverted_element (-1.5) quiet
           eq_refl Hinv).
Defined.

Lemma process_consults_common_prefix_witness :
  process (NP := Coarse_NumPy) small_neuron ([0.5; 0.25] ++ [7; 9]) quiet
  = process (NP := Coarse_NumPy) small_neuron [0.5; 0.25] quiet.
Proof.
  destruct (process_consults_common_prefix (NP := Coarse_NumPy)
              small_neuron [0.5; 0.25] [7; 9] quiet) as (Hextra & _).
  apply Hextra. simpl. lia.
Defined.

Lemma process_result_signals_spike_witness :
  0 <= fst (np_random_random quiet) /\
  (0 < fst (fst (process (NP := Coarse_NumPy) small_neuron [0.5; 0.25] quiet))
   <-> fst (np_random_random quiet)
       < activation (NP := Coarse_NumPy)
           (integrate small_neuron [0.5; 0.25]) (threshold small_neuron)).
Proof.
  assert (Hd : 0 <= fst (np_random_random quiet)) by discriminate.
  destruct (process_result_signals_spike (NP := Coarse_NumPy)
              small_neuron [0.5; 0.25] quiet Hd) as (Hiff & _).
  split; [exact Hd | exact Hiff].
Defined.

Lemma constructor_numbers_units_witness :
  let c := fst (NeuromorphicChip_init_with (NP := Coarse_NumPy)
                  (chip_props small_chip) quiet) in
  exists (row : list BayesianNeuron) (nrn : BayesianNeuron),
    nth_error (layers c) 0 = Some row /\
    nth_error row 0 = Some nrn /\
    neuron_id nrn = 0%Z /\ layer nrn = 0%Z /\ pristine_unit nrn.
Proof.
  intro c.
  exists (nth 0 (layers c) []), (nth 0 (nth 0 (layers c) []) small_neuron).
  assert (Hr : nth_error (layers c) 0 = Some (nth 0 (layers c) []))
    by (vm_compute; reflexivity).
  assert (Hn : nth_error (nth 0 (layers c) []) 0
               = Some (nth 0 (nth 0 (layers c) []) small_neuron))
    by (vm_compute; reflexivity).
  destruct (constructor_numbers_units (NP := Coarse_NumPy)
              (chip_props small_chip) quiet) as [Hnum _].
  destruct (Hnum O O _ _ Hr Hn) as (Hid & Hl & Hu & _).
  split; [exact Hr |]. split; [exact Hn |].
  split; [exact Hid |]. split; [exact Hl | exact Hu].
Defined.

Lemma statistics_ranges_witness :
  exists st : Stats,
    fst (get_stats (NP := Coarse_NumPy) small_chip) = Returned st /\
    stat_synapses st = 2%Z /\
    0 <= stat_degraded_percent st /\ stat_degraded_percent st <= 100.
Proof.
  assert (Hne : all_synapses (layers small_chip) <> []) by discriminate.
  destruct (statistics_ranges (NP := Coarse_NumPy) small_chip Hne)
    as (st & Hst & _ & Hs & _ & H0 & H1 & _).
  exists st. split; [exact Hst |]. split; [exact Hs |].
  split; [exact H0 | exact H1].
Defined.

Lemma fresh_network_statistics_witness :
  exists st : Stats,
    fst (get_stats (fst (NeuromorphicChip_init_with (NP := Coarse_NumPy)
                           (chip_props small_chip) quiet))) = Returned st /\
    stat_neurons st = 1%Z /\
    stat_synapses st = 100%Z /\
    stat_degraded_percent st == 0.
Proof.
  destruct (fresh_network_statistics (NP := Coarse_NumPy)
              (chip_props small_chip) quiet eq_refl eq_refl)
    as (st & Hst & Hn & Hs & Hd & _).
  exists st. split; [exact Hst |]. split; [exact Hn |].
  split; [exact Hs | exact Hd].
Defined.

Lemma process_random_spike_effects_witness :
  let c' := snd (fst (process_random_spike (NP := Coarse_NumPy) small_chip
                        {| draws := [0.1]; picks := [0%Z; 0%Z]; clock := 0 |})) in
  all_synapses (layers c') = [fresh_element; dead_element] /\
  temperature c' = 300.
Proof.
  intro c'.
  destruct (process_random_spike_effects (NP := Coarse_NumPy) small_chip
              {| draws := [0.1]; picks := [0%Z; 0%Z]; clock := 0 |})
    as (_ & _ & Ht & _ & Hs & _).
  split; [exact Hs | exact Ht].
Defined.

Lemma drive_completes_witness :
  shaped small_chip /\
  fst (fst (drive (NP := Coarse_NumPy) (WD := Bounded_World) 3 small_chip
              {| draws := [0.1; 0.9]; picks := [5%Z; 7%Z]; clock := 0 |}))
  = Returned tt.
Proof.
  assert (Hsh : shaped small_chip).
  { split; [reflexivity |]. repeat constructor. }
  destruct (drive_completes (NP := Coarse_NumPy) (WD := Bounded_World) 3
              small_chip
              {| draws := [0.1; 0.9]; picks := [5%Z; 7%Z]; clock := 0 |})
    as [Hgood _].
  destruct (Hgood Hsh eq_refl eq_refl bounded_world_in_bounds) as (Hret & _).
  split; [exact Hsh | exact Hret].
Defined.

Lemma harness_statistics_witness :
  exists st : Stats,
    fst (fst (main_run (NP := Coarse_NumPy) (WD := Bounded_World) quiet))
      = Returned st /\
    stat_neurons st = 10000%Z /\
    stat_synapses st = 1000000%Z /\
    stat_power_W st <= 1e-9.
Proof.
  destruct (harness_statistics (NP := Coarse_NumPy) (WD := Bounded_World)
              quiet bounded_world_in_bounds)
    as (st & Hst & Hn & Hs & _ & _ & _ & _ & Hp & _).
  exists st. split; [exact Hst |]. split; [exact Hn |].
  split; [exact Hs | exact Hp].
Defined.
